(** * UmbraCoreArchive: Scripts/analyze_complexity.py

    A shallow embedding of the refactoring-priority analyser: the pattern
    extractor and complexity scorer, the lint report loader, the tree walker,
    the ranking and the report generator, together with the properties the
    specification states about them.

    Conventions of the embedding.
    - Text is a [string] whose characters are the code points below 256; on
      these [\w], [\s], [\b] and [str.splitlines] are those of Python's
      [str] (Unicode) patterns and methods, of which the ASCII classes are
      the lower half.
    - Python floats are IEEE-754 binary64 values: Rocq's primitive [float].
      A decimal literal denotes the nearest binary64 value in both languages.
    - The builtin [sum] adds floats from left to right up to CPython 3.11
      and with a compensation of the rounding errors from CPython 3.12 on;
      both are embedded.  The program is modelled with the former, and the
      score is given under both.
    - Paths follow [posixpath]: the separator is ["/"]. *)

From Stdlib Require Import ZArith List String Ascii Bool Lia.
From Stdlib Require Import Floats Uint63 Sorting.Sorted Sorting.Permutation.
From stdpp Require Import base strings gmap.
Import ListNotations.

Set Warnings "-inexact-float,-register-all".
Local Open Scope string_scope.
#[local] Arguments String.append !s1 s2 : simpl nomatch.

(** ** Python string primitives *)

Module PyStr.

(** [s.startswith(p)] *)
Fixpoint startswith (p s : string) : bool :=
  match p, s with
  | EmptyString, _ => true
  | String a p', String b s' => Ascii.eqb a b && startswith p' s'
  | String _ _, EmptyString => false
  end.

(** [p in s] for strings *)
Fixpoint contains (p s : string) : bool :=
  startswith p s ||
  match s with
  | EmptyString => false
  | String _ s' => contains p s'
  end.

(** [s.endswith(p)]: [p] is [s] or the end of its tail. *)
Fixpoint endswith (p s : string) : bool :=
  (s =? p) ||
  match s with
  | EmptyString => false
  | String _ s' => endswith p s'
  end.

(** [s.split(sep)] for a one-character separator: never the empty list. *)
Fixpoint split (sep : ascii) (s : string) : list string :=
  match s with
  | EmptyString => [EmptyString]
  | String a s' =>
      if Ascii.eqb a sep then EmptyString :: split sep s'
      else match split sep s' with
           | [] => [String a EmptyString]
           | hd :: tl => String a hd :: tl
           end
  end.

(** [s.split(sep)[0]]: the text before the first separator. *)
Definition split_head (sep : ascii) (s : string) : string :=
  match split sep s with
  | [] => EmptyString
  | hd :: _ => hd
  end.

(** [sep.join(parts)] *)
Fixpoint join (sep : string) (parts : list string) : string :=
  match parts with
  | [] => EmptyString
  | [p] => p
  | p :: ps => p ++ sep ++ join sep ps
  end.

(** The line boundaries of [str.splitlines] below code point 256:
    LF, VT, FF, CR, FS, GS, RS and NEL (U+0085). *)
Definition is_linebreak (a : ascii) : bool :=
  let n := nat_of_ascii a in
  ((10 <=? n) && (n <=? 13) || (28 <=? n) && (n <=? 30) || (n =? 133))%nat.

(** [len(s.splitlines())]: [pending] tells whether the current line has
    characters, [cr] whether the last character was a carriage return
    (so that CR LF is one boundary). *)
Fixpoint count_lines (pending cr : bool) (s : string) : nat :=
  match s with
  | EmptyString => if pending then 1 else 0
  | String a s' =>
      if is_linebreak a then
        if cr && Ascii.eqb a "010" then count_lines false false s'
        else S (count_lines false (Ascii.eqb a "013") s')
      else count_lines true false s'
  end.

Definition splitlines_len (s : string) : nat := count_lines false false s.

(** Iterating over a text file: the lines, each with its line feed. *)
Fixpoint file_lines_aux (cur : string) (s : string) : list string :=
  match s with
  | EmptyString => match cur with EmptyString => [] | _ => [cur] end
  | String a s' =>
      if Ascii.eqb a "010" then (cur ++ String a EmptyString) :: file_lines_aux EmptyString s'
      else file_lines_aux (cur ++ String a EmptyString) s'
  end.

Definition file_lines (s : string) : list string := file_lines_aux EmptyString s.

End PyStr.

(** ** The fragment of [re] the script uses *)

Module Re.

Inductive cclass := CWord | CSpace.

Inductive regex :=
| Eps                        (* the empty pattern *)
| Chr (a : ascii)            (* a literal character *)
| Plus (c : cclass)          (* [\w+], [\s+]: greedy *)
| Bnd                        (* [\b] *)
| NotAhead (r : regex)       (* [(?!r)] *)
| Seq (r1 r2 : regex)
| Alt (r1 r2 : regex).

(** [\w] of a [str] pattern: the alphanumeric code points and the
    underscore.  Below 256 these are the ASCII digits and letters, the
    ordinal indicators, the superscript digits, the micro sign, the vulgar
    fractions and the accented letters (not the signs U+00D7 and U+00F7). *)
Definition is_word (a : ascii) : bool :=
  let n := nat_of_ascii a in
  ((48 <=? n) && (n <=? 57) || (65 <=? n) && (n <=? 90)
   || (97 <=? n) && (n <=? 122) || (n =? 95)
   || (n =? 170) || (178 <=? n) && (n <=? 179) || (n =? 181)
   || (185 <=? n) && (n <=? 186) || (188 <=? n) && (n <=? 190)
   || (192 <=? n) && (n <=? 214) || (216 <=? n) && (n <=? 246)
   || (248 <=? n) && (n <=? 255))%nat.

(** [\s] of a [str] pattern: the white space of [str.isspace].  Below 256:
    TAB to CR, FS to US, the space, NEL (U+0085) and the no-break space. *)
Definition is_space (a : ascii) : bool :=
  let n := nat_of_ascii a in
  ((9 <=? n) && (n <=? 13) || (28 <=? n) && (n <=? 32)
   || (n =? 133) || (n =? 160))%nat.

Definition in_class (c : cclass) (a : ascii) : bool :=
  match c with CWord => is_word a | CSpace => is_space a end.

Definition next_word (s : list ascii) : bool :=
  match s with [] => false | a :: _ => is_word a end.

(** Backtracking matcher in continuation-passing style.  [prevw] tells
    whether the character before the current position is a word character;
    the continuation receives that flag and the rest of the text. *)
Fixpoint plus_k (c : cclass) (s : list ascii)
    (k : bool -> list ascii -> option nat) : option nat :=
  match s with
  | [] => None
  | a :: s' =>
      if in_class c a then
        match plus_k c s' k with
        | Some n => Some n
        | None => k (is_word a) s'
        end
      else None
  end.

Fixpoint matches (r : regex) (prevw : bool) (s : list ascii)
    (k : bool -> list ascii -> option nat) : option nat :=
  match r with
  | Eps => k prevw s
  | Chr a =>
      match s with
      | b :: s' => if Ascii.eqb a b then k (is_word b) s' else None
      | [] => None
      end
  | Plus c => plus_k c s k
  | Bnd => if xorb prevw (next_word s) then k prevw s else None
  | NotAhead r' =>
      match matches r' prevw s (fun _ _ => Some 0) with
      | Some _ => None
      | None => k prevw s
      end
  | Seq r1 r2 => matches r1 prevw s (fun pw s' => matches r2 pw s' k)
  | Alt r1 r2 =>
      match matches r1 prevw s k with
      | Some n => Some n
      | None => matches r2 prevw s k
      end
  end.

(** The length of the match of [r] that starts at the current position. *)
Definition match_at (r : regex) (prevw : bool) (s : list ascii) : option nat :=
  matches r prevw s (fun _ rest => Some (List.length s - List.length rest)).

(** [len(re.findall(r, s))]: scan from left to right; [skip] counts the
    characters still covered by the last match, so matches never overlap.
    An empty match would be counted and the scan moved on by one character;
    no pattern of the script has one (see [match_at_positive]). *)
Fixpoint count_from (r : regex) (skip : nat) (prevw : bool) (s : list ascii) : nat :=
  match s with
  | [] =>
      match skip, match_at r prevw [] with
      | O, Some _ => 1
      | _, _ => 0
      end
  | a :: s' =>
      match skip with
      | S n => count_from r n (is_word a) s'
      | O =>
          match match_at r prevw s with
          | Some n => S (count_from r (Nat.pred n) (is_word a) s')
          | None => count_from r 0 (is_word a) s'
          end
      end
  end.

Definition findall_len (r : regex) (s : string) : nat :=
  count_from r 0 false (list_ascii_of_string s).

(** A literal string as a pattern. *)
Fixpoint lit (s : string) : regex :=
  match s with
  | EmptyString => Eps
  | String a s' => Seq (Chr a) (lit s')
  end.

End Re.

(** ** Pattern extractor and complexity scorer *)

Import Re.

Record FileMetrics := {
  path : string;
  line_count : nat;
  type_count : nat;
  function_count : nat;
  complexity_score : float;
  lint_issues : nat
}.

(** [\bkw\s+\w+] *)
Definition decl (kw : string) : regex :=
  Seq Bnd (Seq (lit kw) (Seq (Plus CSpace) (Plus CWord))).

Definition type_patterns : list regex :=
  [decl "class"; decl "struct"; decl "enum"; decl "protocol"].

Definition count_types (content : string) : nat :=
  list_sum (map (fun pattern => findall_len pattern content) type_patterns).

Definition func_pattern : regex := decl "func".

Definition count_functions (content : string) : nat :=
  findall_len func_pattern content.

(** An [int] count used in float arithmetic. *)
Definition float_of_len (n : nat) : float :=
  PrimFloat.of_uint63 (Uint63.of_Z (Z.of_nat n)).

(** The builtin [sum] up to CPython 3.11: additions from left to right,
    starting from 0. *)
Definition py_sum (xs : list float) : float :=
  fold_left PrimFloat.add xs 0%float.

Definition is_finite (x : float) : bool := negb (is_nan x || is_infinity x).

(** The builtin [sum] from CPython 3.12 on.  The first float is added to
    the integer 0 as before; from then on the sum is Neumaier's compensated
    sum: [c] collects the rounding error of each addition, the larger
    operand deciding how it is recovered, and is added at the end unless it
    is zero or not finite. *)
Definition py_sum_compensated (xs : list float) : float :=
  match xs with
  | [] => 0%float
  | x0 :: rest =>
      let step (fc : float * float) (x : float) : float * float :=
        let t := (fc.1 + x)%float in
        (t, if (abs x <=? abs fc.1)%float
            then (fc.2 + ((fc.1 - t) + x))%float
            else (fc.2 + ((x - t) + fc.1))%float) in
      let fc := fold_left step rest ((0 + x0)%float, 0%float) in
      if negb (fc.2 =? 0)%float && is_finite fc.2 then (fc.1 + fc.2)%float else fc.1
  end.

(** [\{] *)
Definition re_brace : regex := Chr "{".

(** [\b(if|guard|switch|while|for)\b] *)
Definition re_conditional : regex :=
  Seq Bnd
    (Seq (Alt (lit "if") (Alt (lit "guard") (Alt (lit "switch")
            (Alt (lit "while") (lit "for")))))
         Bnd).

(** [!(?!\=)] *)
Definition re_force_unwrap : regex := Seq (Chr "!") (NotAhead (Chr "=")).

(** [as!] *)
Definition re_force_cast : regex := lit "as!".

Definition complex_patterns : list (regex * float) :=
  [ (lit "try?", 0.2%float);                      (* Optional try *)
    (lit "try!", 0.4%float);                      (* Force try *)
    (lit "?.", 0.1%float);                        (* Optional chaining *)
    (lit "??", 0.2%float);                        (* Nil coalescing *)
    (lit "@escaping", 0.3%float);                 (* Escaping closures *)
    (Seq Bnd (Seq (lit "closure") Bnd), 0.2%float);  (* Explicit closure usage *)
    (Seq Bnd (lit "init?"), 0.2%float);           (* Failable initializers *)
    (Seq Bnd (Seq (lit "deinit") Bnd), 0.3%float);   (* Deinitializers *)
    (Seq (lit "@objc") Bnd, 0.2%float);           (* Objective-C interop *)
    (Seq Bnd (Seq (lit "extension") Bnd), 0.1%float) (* Extensions *)
  ].

(** [calculate_complexity(content)], given what the builtin [sum] of the
    interpreter computes. *)
Definition calculate_complexity_with (sum : list float -> float) (content : string)
  : float :=
  let nesting_score := (float_of_len (findall_len re_brace content) * 0.1)%float in
  let conditionals := (float_of_len (findall_len re_conditional content) * 0.2)%float in
  let force_unwrap := (float_of_len (findall_len re_force_unwrap content) * 0.3)%float in
  let force_cast := (float_of_len (findall_len re_force_cast content) * 0.3)%float in
  let pattern_score :=
    sum (map (fun pw : regex * float =>
                (float_of_len (findall_len pw.1 content) * pw.2)%float)
             complex_patterns) in
  (nesting_score + conditionals + force_unwrap + force_cast + pattern_score)%float.

(** The scorer as the rest of the program is modelled with it: under the
    left-to-right [sum]. *)
Definition calculate_complexity (content : string) : float :=
  calculate_complexity_with py_sum content.

(** ** Eligibility *)

Definition excluded_dirs : gset string :=
  {[ ".build"; ".git"; "Tests"; "Examples"; "Documentation" ]}.

Definition should_analyze_file (file_path : string) : bool :=
  let parts := PyStr.split "/" file_path in
  if existsb (fun part => bool_decide (part ∈ excluded_dirs)) parts then false
  else PyStr.endswith ".swift" file_path.

(** ** [posixpath] *)

Module PosixPath.

(** [os.path.join(a, b)] *)
Definition join (a b : string) : string :=
  if PyStr.startswith "/" b then b
  else if (a =? "") || PyStr.endswith "/" a then a ++ b
  else a ++ "/" ++ b.

(** [os.path.join(a, *p)] *)
Definition join_all (a : string) (p : list string) : string :=
  fold_left join p a.

(** One round of the loop of [normpath]; [stack] is [new_comps] with its
    last element first. *)
Definition norm_step (rooted : bool) (stack : list string) (comp : string)
  : list string :=
  if (comp =? "") || (comp =? ".") then stack
  else if negb (comp =? "..")
          || (negb rooted && match stack with [] => true | _ => false end)
          || match stack with top :: _ => top =? ".." | [] => false end
       then comp :: stack
       else match stack with
            | _ :: stack' => stack'
            | [] => stack
            end.

Definition initial_slashes (p : string) : nat :=
  if PyStr.startswith "/" p then
    if PyStr.startswith "//" p && negb (PyStr.startswith "///" p) then 2 else 1
  else 0.

Definition norm_comps (p : string) : list string :=
  rev (fold_left (norm_step (negb (initial_slashes p =? 0)%nat)) (PyStr.split "/" p) []).

Definition normpath (p : string) : string :=
  if p =? "" then "."
  else
    let r := String.concat "" (repeat "/" (initial_slashes p)) ++ PyStr.join "/" (norm_comps p) in
    if r =? "" then "." else r.

(** [os.path.abspath(p)] in the working directory [cwd] *)
Definition abspath (cwd p : string) : string :=
  normpath (if PyStr.startswith "/" p then p else join cwd p).

Fixpoint common_prefix_len (l1 l2 : list string) : nat :=
  match l1, l2 with
  | a :: l1', b :: l2' => if a =? b then S (common_prefix_len l1' l2') else 0
  | _, _ => 0
  end.

Definition nonempty_parts (p : string) : list string :=
  List.filter (fun x => negb (x =? "")) (PyStr.split "/" p).

(** [os.path.relpath(p, start)]; [None] is its [ValueError]. *)
Definition relpath (cwd p start : string) : option string :=
  if p =? "" then None
  else
    let start_list := nonempty_parts (abspath cwd start) in
    let path_list := nonempty_parts (abspath cwd p) in
    let i := common_prefix_len start_list path_list in
    let rel_list := (repeat ".." (List.length start_list - i) ++ skipn i path_list)%list in
    match rel_list with
    | [] => Some "."
    | a :: rest => Some (join_all a rest)
    end.

End PosixPath.

(** ** The file system the script reads *)

(** What [open(p).read()] gives: the text, or the exception it raises. *)
Inductive read_result :=
| Content (text : string)
| ReadError (e : string).

Inductive node :=
| File (r : read_result)
| Dir (entries : list (string * node)).

Definition dirnames (es : list (string * node)) : list string :=
  flat_map (fun e => match e.2 with Dir _ => [e.1] | File _ => [] end) es.

Definition filenames (es : list (string * node)) : list (string * read_result) :=
  flat_map (fun e => match e.2 with File r => [(e.1, r)] | Dir _ => [] end) es.

(** [os.walk(top)], top-down: the directory itself, then its
    sub-directories in listing order.  A path that is not a directory yields
    nothing.  Each file name comes with what reading the file gives. *)
Fixpoint walk (top : string) (n : node)
  : list (string * list string * list (string * read_result)) :=
  match n with
  | File _ => []
  | Dir es =>
      (top, dirnames es, filenames es) ::
      (fix subdirs (es : list (string * node)) :=
         match es with
         | [] => []
         | (name, sub) :: rest =>
             (walk (PosixPath.join top name) sub ++ subdirs rest)%list
         end) es
  end.

(** The environment of a run: the working directory and what the operating
    system finds at a path. *)
Record world := {
  cwd : string;
  fs : string -> option node
}.

(** ** Lint report loader *)

(** [lint_issues.get(file_path, 0)] *)
Definition lint_get (lint_issues : gmap string nat) (file_path : string) : nat :=
  default 0 (lint_issues !! file_path).

(** ['warning: ' in line or 'error: ' in line] *)
Definition is_diagnostic (line : string) : bool :=
  PyStr.contains "warning: " line || PyStr.contains "error: " line.

(** One round of the loop over the lines of the report. *)
Definition lint_line (lint_issues : gmap string nat) (line : string)
  : gmap string nat :=
  if is_diagnostic line then
    let file_path := PyStr.split_head ":" line in
    <[file_path := lint_get lint_issues file_path + 1]> lint_issues
  else lint_issues.

Definition load_lint_lines (lines : list string) : gmap string nat :=
  fold_left lint_line lines ∅.

Inductive result (A : Type) :=
| Ok (a : A)
| Raise (e : string).
Arguments Ok {A} a.
Arguments Raise {A} e.

(** The first part of [analyze_swift_files]: the report is optional, but
    once it exists an error while reading it is not caught. *)
Definition load_lint_report (w : world) (root_dir : string)
  : result (gmap string nat) :=
  let lint_report := PosixPath.join root_dir "swiftlint_report.txt" in
  match fs w lint_report with
  | None => Ok ∅
  | Some (File (Content text)) => Ok (load_lint_lines (PyStr.file_lines text))
  | Some (File (ReadError e)) => Raise e
  | Some (Dir _) => Raise "IsADirectoryError"
  end.

(** ** Tree walker and metrics collector *)

(** Printed text: literal text with the formatted values kept apart. *)
Inductive piece :=
| Str (s : string)
| Num (n : nat)          (* an [int] field *)
| Fix2 (x : float).      (* a float under [:.2f] *)

Definition line := list piece.

Inductive event :=
| Collected (m : FileMetrics)   (* [metrics.append(...)] *)
| Failed (msg : line).          (* [print(..., file=sys.stderr)] *)

(** The body of the inner loop for one file of directory [root]. *)
Definition visit (w : world) (root_dir : string) (lint : gmap string nat)
    (root : string) (f : string * read_result) : list event :=
  let file_path := PosixPath.join root f.1 in
  if negb (should_analyze_file file_path) then []
  else
    let attempt :=
      match f.2 with
      | ReadError e => Raise e
      | Content content =>
          match PosixPath.relpath (cwd w) file_path root_dir with
          | None => Raise "no path specified"
          | Some rel =>
              Ok {| path := rel;
                    line_count := PyStr.splitlines_len content;
                    type_count := count_types content;
                    function_count := count_functions content;
                    complexity_score := calculate_complexity content;
                    lint_issues := lint_get lint file_path |}
          end
      end in
    match attempt with
    | Ok m => [Collected m]
    | Raise e => [Failed [Str "Error processing "; Str file_path; Str ": "; Str e]]
    end.

Definition walked (w : world) (root_dir : string)
  : list (string * list string * list (string * read_result)) :=
  match fs w root_dir with
  | Some n => walk root_dir n
  | None => []
  end.

Definition scan (w : world) (root_dir : string) (lint : gmap string nat)
  : list event :=
  flat_map (fun d => flat_map (visit w root_dir lint d.1.1) d.2) (walked w root_dir).

Definition collected (evs : list event) : list FileMetrics :=
  flat_map (fun ev => match ev with Collected m => [m] | Failed _ => [] end) evs.

Definition diagnostics (evs : list event) : list line :=
  flat_map (fun ev => match ev with Failed msg => [msg] | Collected _ => [] end) evs.

(** [analyze_swift_files(root_dir)]: the lines written to the error stream
    and the metrics returned, or the exception that ends the call. *)
Definition analyze_swift_files (w : world) (root_dir : string)
  : list line * result (list FileMetrics) :=
  match load_lint_report w root_dir with
  | Raise e => ([], Raise e)
  | Ok lint =>
      let evs := scan w root_dir lint in
      (diagnostics evs, Ok (collected evs))
  end.

(** ** Ranking and report generator *)

(** [key=lambda x: (x.complexity_score + x.lint_issues * 0.5)] *)
Definition sort_key (x : FileMetrics) : float :=
  (complexity_score x + float_of_len (lint_issues x) * 0.5)%float.

(** [list.sort(key=..., reverse=True)]: a stable sort that only asks whether
    one key is less than another; an element moves behind a later one only
    when its key is strictly smaller. *)
Fixpoint insert_desc {A : Type} (key : A -> float) (x : A) (l : list A) : list A :=
  match l with
  | [] => [x]
  | y :: l' =>
      if (key x <? key y)%float then y :: insert_desc key x l'
      else x :: y :: l'
  end.

Definition sort_desc {A : Type} (key : A -> float) (l : list A) : list A :=
  fold_right (insert_desc key) [] l.

Definition nl : string := String "010" EmptyString.

(** The lines the top-10 listing prints for one entry. *)
Definition listing (m : FileMetrics) : list line :=
  [ [Str nl; Str (path m)];
    [Str "  Lines: "; Num (line_count m)];
    [Str "  Types: "; Num (type_count m)];
    [Str "  Functions: "; Num (function_count m)];
    [Str "  Complexity Score: "; Fix2 (complexity_score m)];
    [Str "  Lint Issues: "; Num (lint_issues m)] ].

Definition summary (metrics : list FileMetrics) : list line :=
  let total_lines := list_sum (map line_count metrics) in
  let total_types := list_sum (map type_count metrics) in
  let total_functions := list_sum (map function_count metrics) in
  let total_issues := list_sum (map lint_issues metrics) in
  [ [Str "Total Files: "; Num (List.length metrics)];
    [Str "Total Lines: "; Num total_lines];
    [Str "Total Types: "; Num total_types];
    [Str "Total Functions: "; Num total_functions];
    [Str "Total Lint Issues: "; Num total_issues] ].

Definition split_line : line := [Str "- Consider splitting into smaller files"].
Definition types_line : line := [Str "- Consider separating types into different files"].
Definition functions_line : line := [Str "- Consider extracting some functions into extensions"].
Definition lint_line_out : line := [Str "- Address SwiftLint issues"].
Definition simplify_lines : list line :=
  [ [Str "- High complexity score indicates need for simplification"];
    [Str "  * Look for opportunities to reduce nesting"];
    [Str "  * Consider breaking down complex functions"];
    [Str "  * Review force unwrapping and force casting usage"] ].

(** [m.complexity_score > 5 or m.lint_issues > 0] *)
Definition needs_attention (m : FileMetrics) : bool :=
  (5 <? complexity_score m)%float || (0 <? lint_issues m)%nat.

(** The lines the recommendations loop prints for one entry. *)
Definition recommend (m : FileMetrics) : list line :=
  if needs_attention m then
    ([ [Str nl; Str (path m); Str ":"] ]
     ++ (if (300 <? line_count m)%nat then [split_line] else [])
     ++ (if (3 <? type_count m)%nat then [types_line] else [])
     ++ (if (10 <? function_count m)%nat then [functions_line] else [])
     ++ (if (0 <? lint_issues m)%nat then [lint_line_out] else [])
     ++ (if (10 <? complexity_score m)%float then simplify_lines else []))%list
  else [].

(** [generate_report(metrics)]: the lines written to standard output. *)
Definition generate_report (metrics : list FileMetrics) : list line :=
  let metrics := sort_desc sort_key metrics in
  ([ [Str nl; Str "Refactoring Priority Report"];
     [Str "========================="; Str nl];
     [Str "Top 10 Files Requiring Attention:"];
     [Str "--------------------------------"] ]
   ++ flat_map listing (firstn 10 metrics)
   ++ [ [Str nl; Str "Summary Statistics:"];
        [Str "------------------"] ]
   ++ summary metrics
   ++ [ [Str nl; Str "Refactoring Recommendations:"];
        [Str "---------------------------"] ]
   ++ flat_map recommend (firstn 5 metrics))%list.

(** ** The program *)

Inductive termination :=
| Exit (status : Z)          (* [sys.exit(status)], or the end of the script: 0 *)
| Uncaught (e : string).     (* an exception nobody catches: traceback, status 1 *)

(** What the script itself prints on the two streams, and how it ends.
    After [Uncaught] the interpreter goes on to write the traceback of the
    exception to the error stream. *)
Record run := {
  stdout : list line;
  stderr : list line;
  ending : termination
}.

Definition usage : line := [Str "Usage: python3 analyze_complexity.py <root_directory>"].

(** The block under [if __name__ == '__main__']; [argv] is [sys.argv]. *)
Definition main (w : world) (argv : list string) : run :=
  if negb (List.length argv =? 2)%nat then
    {| stdout := [usage]; stderr := []; ending := Exit 1 |}
  else
    let root_dir := nth 1 argv "" in
    match analyze_swift_files w root_dir with
    | (errs, Raise e) => {| stdout := []; stderr := errs; ending := Uncaught e |}
    | (errs, Ok metrics) =>
        {| stdout := generate_report metrics; stderr := errs; ending := Exit 0 |}
    end.

(** ** Well-formed directory trees *)

(** A directory entry as the operating system lists it: a non-empty name
    without separator that is neither ["."] nor [".."]. *)
Definition valid_name (name : string) : bool :=
  negb (name =? "") && negb (name =? ".") && negb (name =? "..")
  && negb (PyStr.contains "/" name).

Fixpoint wf_node (n : node) : bool :=
  match n with
  | File _ => true
  | Dir es =>
      (fix entries (es : list (string * node)) : bool :=
         match es with
         | [] => true
         | (name, sub) :: rest => valid_name name && wf_node sub && entries rest
         end) es
  end.

Definition is_directory (w : world) (p : string) : bool :=
  match fs w p with
  | Some (Dir _) => true
  | _ => false
  end.

(** The tree without the files that cannot be read. *)
Fixpoint drop_unreadable (n : node) : node :=
  match n with
  | File r => File r
  | Dir es =>
      Dir ((fix entries (es : list (string * node)) : list (string * node) :=
              match es with
              | [] => []
              | (name, File (ReadError _)) :: rest => entries rest
              | (name, sub) :: rest => (name, drop_unreadable sub) :: entries rest
              end) es)
  end.

Definition without_unreadable (w : world) : world :=
  {| cwd := cwd w; fs := fun p => option_map drop_unreadable (fs w p) |}.

(** ** Notions used by the statements *)

(** [a] may stand before [b] in a descending order: its key is not smaller. *)
Definition not_below {A : Type} (key : A -> float) (a b : A) : Prop :=
  (key b <=? key a)%float = true.

(** A pattern every match of which has a character. *)
Fixpoint consumes (r : regex) : bool :=
  match r with
  | Chr _ | Plus _ => true
  | Seq r1 r2 => consumes r1 || consumes r2
  | Alt r1 r2 => consumes r1 && consumes r2
  | Eps | Bnd | NotAhead _ => false
  end.

(** The least number of characters a match of the pattern has. *)
Fixpoint min_len (r : regex) : nat :=
  match r with
  | Chr _ | Plus _ => 1
  | Seq r1 r2 => min_len r1 + min_len r2
  | Alt r1 r2 => Nat.min (min_len r1) (min_len r2)
  | Eps | Bnd | NotAhead _ => 0
  end.

(** What is left of a text after the literal [p], when the text starts
    with it. *)
Fixpoint starts (p : string) (s : list ascii) : option (list ascii) :=
  match p with
  | EmptyString => Some s
  | String a p' =>
      match s with
      | b :: s' => if Ascii.eqb a b then starts p' s' else None
      | [] => None
      end
  end.

(** [p] occurs at a position; [left] asks that no word character comes
    before it, [right] that none follows it. *)
Definition occurrence (left : bool) (p : string) (right : bool)
    (after_word : bool) (s : list ascii) : bool :=
  (negb left || negb after_word)
  && match starts p s with
     | Some rest => negb right || negb (next_word rest)
     | None => false
     end.

(** The number of positions of a text where [here] holds; [after_word]
    tells whether a word character comes before the position. *)
Fixpoint positions (here : bool -> list ascii -> bool) (after_word : bool)
    (s : list ascii) : nat :=
  (if here after_word s then 1 else 0)
  + match s with
    | [] => 0
    | a :: s' => positions here (is_word a) s'
    end.

(** The positions of a text at which the literal [p] stands. *)
Definition occurrences (p : string) (text : list ascii) : nat :=
  positions (occurrence false p false) false text.

(** The positions at which [kw] stands as a whole word: no word character
    comes before it and none follows it. *)
Definition whole_words (kw : string) (text : list ascii) : nat :=
  positions (occurrence true kw true) false text.

(** [s.count(p)] for a literal [p] that is not empty: the occurrences from
    left to right that do not overlap; [skip] characters belong to the
    occurrence counted last. *)
Fixpoint count_skip (p : string) (skip : nat) (s : list ascii) : nat :=
  match s with
  | [] => 0
  | _ :: s' =>
      match skip with
      | S n => count_skip p n s'
      | O =>
          match starts p s with
          | Some _ => S (count_skip p (Nat.pred (String.length p)) s')
          | None => count_skip p 0 s'
          end
      end
  end.

(** [text.count(p)] *)
Definition str_count (p : string) (text : list ascii) : nat := count_skip p 0 text.

(** The pattern of a literal with [\b] before or after it. *)
Definition bounded (left : bool) (p : string) (right : bool) : regex :=
  let core := if right then Seq (lit p) Bnd else lit p in
  if left then Seq Bnd core else core.

(** The alternation [kw|k1|...|kn] of literals. *)
Fixpoint alts (kw : string) (ks : list string) : regex :=
  match ks with
  | [] => lit kw
  | k :: ks' => Alt (lit kw) (alts k ks')
  end.

(** Whether a word character ends the literal [p] read after [pw]. *)
Fixpoint after (p : string) (pw : bool) : bool :=
  match p with
  | EmptyString => pw
  | String a p' => after p' (is_word a)
  end.

(** Whether a word character begins the literal. *)
Definition first_word (p : string) : bool :=
  match p with
  | EmptyString => false
  | String a _ => is_word a
  end.

(** No position among the next [skip] ones satisfies [here]. *)
Fixpoint quiet (here : bool -> list ascii -> bool) (skip : nat) (pw : bool)
    (s : list ascii) : Prop :=
  match skip with
  | 0 => True
  | S n =>
      here pw s = false
      /\ match s with
         | [] => True
         | a :: s' => quiet here n (is_word a) s'
         end
  end.

(** Two literals differ at an index both have. *)
Fixpoint clash (p q : string) : bool :=
  match p, q with
  | String a p', String b q' => negb (Ascii.eqb a b) || clash p' q'
  | _, _ => false
  end.

(** No occurrence of [p] begins inside the literal [String prev q]: at each
    inner position a word character comes before (and [p] is bounded on the
    left) or [p] differs from what is there. *)
Fixpoint isolated (left : bool) (p : string) (prev : ascii) (q : string) : bool :=
  match q with
  | EmptyString => true
  | String b q' => ((left && is_word prev) || clash p q) && isolated left p b q'
  end.

(** The side conditions of a bounded literal: it is not empty, a word
    character stands where it is bounded, and it is isolated from itself. *)
Definition well_bounded (left : bool) (p : string) (right : bool) : bool :=
  match p with
  | EmptyString => false
  | String a q =>
      implb left (is_word a) && implb right (after p false) && isolated left p a q
  end.

(** One of the keywords stands at the position as a whole word. *)
Definition any_word (kws : list string) (after_word : bool) (s : list ascii) : bool :=
  existsb (fun kw => occurrence true kw true after_word s) kws.

(** No occurrence of one keyword begins inside another or inside itself. *)
Definition apart (kws : list string) : bool :=
  forallb (fun kw =>
             match kw with
             | EmptyString => false
             | String a q => forallb (fun kw' => isolated true kw' a q) kws
             end) kws.

(** The length of the first keyword that stands at the position. *)
Fixpoint first_word_len (kws : list string) (pw : bool) (s : list ascii) : option nat :=
  match kws with
  | [] => None
  | kw :: ks =>
      if occurrence true kw true pw s then Some (String.length kw)
      else first_word_len ks pw s
  end.

(** The first characters of the keywords differ from one another. *)
Fixpoint distinct_heads (kws : list string) : bool :=
  match kws with
  | [] => true
  | kw :: ks =>
      match kw with
      | EmptyString => false
      | String a _ =>
          forallb (fun k => match k with
                            | EmptyString => false
                            | String b _ => negb (Ascii.eqb a b)
                            end) ks
          && distinct_heads ks
      end
  end.

(** The exclamation marks that are not directly followed by an equals sign. *)
Fixpoint unwrap_count (s : list ascii) : nat :=
  match s with
  | [] => 0
  | a :: rest =>
      (if (a =? "!")%char
          && negb (match rest with b :: _ => (b =? "=")%char | [] => false end)
       then 1 else 0)
      + unwrap_count rest
  end.

(** The files of a walk that pass [should_analyze_file], with the directory
    they are in. *)
Definition eligible_files (w : world) (root_dir : string)
  : list (string * (string * read_result)) :=
  flat_map (fun d =>
              map (fun f => (d.1.1, f))
                (List.filter (fun f => should_analyze_file (PosixPath.join d.1.1 f.1))
                   d.2))
    (walked w root_dir).

(** A tree whose root is itself below a directory named [Tests]. *)
Definition root_below_tests : world :=
  {| cwd := "/home/dev";
     fs := fun p =>
       if p =? "Tests/fixtures"
       then Some (Dir [ ("a.swift", File (Content "let a = 1"));
                        ("sub", Dir [ ("b.swift", File (ReadError "Permission denied")) ]) ])
       else None |}.

(** The entries of every directory have distinct names, as a file system
    has them. *)
Fixpoint unique_names (n : node) : bool :=
  match n with
  | File _ => true
  | Dir es =>
      (fix entries (es : list (string * node)) : bool :=
         match es with
         | [] => true
         | (name, sub) :: rest =>
             negb (existsb (String.eqb name) (map fst rest))
             && unique_names sub && entries rest
         end) es
  end.

(** The files below a directory in the order [walk] meets them, each as the
    chain of names that leads to it. *)
Fixpoint chains (n : node) : list (list string) :=
  match n with
  | File _ => []
  | Dir es =>
      (map (fun f : string * read_result => [f.1]) (filenames es)
       ++ (fix subdirs (es : list (string * node)) : list (list string) :=
             match es with
             | [] => []
             | (name, sub) :: rest => map (cons name) (chains sub) ++ subdirs rest
             end) es)%list
  end.

(** The files of a walk, each with the directory it is reported in. *)
Definition files_of
    (ds : list (string * list string * list (string * read_result)))
  : list (string * (string * read_result)) :=
  flat_map (fun d => map (fun f => (d.1.1, f)) d.2) ds.

(** [os.path.join(root, file)] for a file of a walk. *)
Definition traversal_path (p : string * (string * read_result)) : string :=
  PosixPath.join p.1 p.2.1.

(** The sum of the counts of a lint map. *)
Definition lint_total (lint_issues : gmap string nat) : nat :=
  map_fold (fun _ count acc => count + acc) 0 lint_issues.

(** One term of the score: [len(re.findall(r, content)) * weight]. *)
Definition weighted (content : string) (r : regex) (weight : float) : float :=
  (float_of_len (findall_len r content) * weight)%float.

(** The patterns that contribute to the score. *)
Definition scoring_patterns : list regex :=
  re_brace :: re_conditional :: re_force_unwrap :: re_force_cast
  :: map fst complex_patterns.

(** The record the collector builds for the file [name] of directory [root]. *)
Definition metrics_of (lint : gmap string nat) (root name content rel : string)
  : FileMetrics :=
  {| path := rel;
     line_count := PyStr.splitlines_len content;
     type_count := count_types content;
     function_count := count_functions content;
     complexity_score := calculate_complexity content;
     lint_issues := lint_get lint (PosixPath.join root name) |}.

(** What [drop_unreadable] keeps of one directory entry. *)
Definition kept (e : string * node) : list (string * node) :=
  match e.2 with
  | File (ReadError _) => []
  | sub => [(e.1, drop_unreadable sub)]
  end.

(** The events of the directories a walk yields. *)
Definition events (w : world) (root_dir : string) (lint : gmap string nat)
    (ds : list (string * list string * list (string * read_result))) : list event :=
  flat_map (fun d => flat_map (visit w root_dir lint d.1.1) d.2) ds.

(** The form of the lines written to the error stream. *)
Definition is_error_line (l : line) : Prop :=
  exists file_path e, l = [Str "Error processing "; Str file_path; Str ": "; Str e].

(** The separator [os.path.join] puts after [a]. *)
Definition join_sep (a : string) : string :=
  if (a =? "") || PyStr.endswith "/" a then "" else "/".

(** The text after the first of the components joined by ["/"]. *)
Definition tail_str (cs : list string) : string :=
  fold_right (fun c acc => "/" ++ c ++ acc) "" cs.

(** A path component that [normpath] keeps. *)
Definition plain (c : string) : Prop := c <> "" /\ PyStr.contains "/" c = false.

(** What [abspath] normalises. *)
Definition anchored (cwd p : string) : string :=
  if PyStr.startswith "/" p then p else PosixPath.join cwd p.

(** The worlds of real runs: the working directory is absolute and the
    directory entries are valid names. *)
Definition wf_world (w : world) (root_dir : string) : Prop :=
  PyStr.startswith "/" (cwd w) = true
  /\ forall n, fs w root_dir = Some n -> wf_node n = true.

(** ** Concrete inputs used by the examples below *)

(** A world whose only directory is [root_dir], holding [tree]; the lint
    report is the entry of that name in [tree], if any. *)
Definition lookup_entry (name : string) (n : node) : option node :=
  match n with
  | File _ => None
  | Dir es => option_map snd (List.find (fun e => e.1 =? name) es)
  end.

Definition tree_world (cwd root_dir : string) (tree : node) : world :=
  {| cwd := cwd;
     fs := fun p =>
       if p =? root_dir then Some tree
       else if p =? PosixPath.join root_dir "swiftlint_report.txt"
            then lookup_entry "swiftlint_report.txt" tree
            else None |}.

(** Three eligible files, one of which cannot be read. *)
Definition three_files : world :=
  tree_world "/home/dev" "proj"
    (Dir [ ("App.swift", File (Content "class App { func run() { if ready { start() } } }"));
           ("Sources", Dir [ ("Core.swift", File (ReadError "Permission denied"));
                             ("Util.swift", File (Content "struct Util { }")) ]);
           ("README.md", File (Content "notes")) ]).

(** The argument names a regular file. *)
Definition plain_file : world :=
  tree_world "/home/dev" "notes.txt" (File (Content "not a directory")).

(** A directory that contains a directory of its own name, and a lint log
    whose path is written relative to the scan root. *)
Definition nested_same_name : world :=
  tree_world "/home/dev" "proj"
    (Dir [ ("a.swift", File (Content "let a = 1"));
           ("proj", Dir [ ("a.swift", File (Content "let b = 2")) ]);
           ("swiftlint_report.txt",
            File (Content ("proj/a.swift:1:5: warning: Identifier Name Violation" ++ nl))) ]).

Definition record (p : string) (lines : nat) (score : float) (lint : nat)
  : FileMetrics :=
  {| path := p; line_count := lines; type_count := 0; function_count := 0;
     complexity_score := score; lint_issues := lint |}.

(** A Swift text with every scoring pattern in it, and with words that only
    look like one ([iffy], [forty], [elsif], [@objcx], [!=]). *)
Definition swift_sample : string :=
  "extension Foo { @objc func f(x: Int?) -> Int { guard let y = x else { return 0 }; if y != 1 { for i in 0..<y { while g(i) { z = try? h(i) ?? a?.b } } }; switch y { default: w = v as! Int }; k = try! m(); c!.d(); return y }; deinit { }; init?(q: @escaping () -> Void) { self.closure = q } } iffy forty elsif @objcx".

(** Four records with scores 1.0, 3.0, 3.0, 2.0 and no lint issue. *)
Definition four_records : list FileMetrics :=
  [ record "a" 0 1 0; record "b" 0 3 0; record "c" 0 3 0; record "d" 0 2 0 ].

(** Four records whose order the lint issues decide: the keys are 3.0, 3.0,
    3.5 and 2.5. *)
Definition mixed_records : list FileMetrics :=
  [ record "a" 0 3 0; record "b" 0 2 2; record "c" 0 1 5; record "d" 0 2.5 0 ].

(** A tree with files below excluded directories, at several depths. *)
Definition with_excluded : world :=
  tree_world "/home/dev" "proj"
    (Dir [ ("Sources", Dir [ ("Ok.swift", File (Content "let ok = true"));
                             ("Tests", Dir [ ("Deep", Dir [ ("T.swift", File (Content "")) ]) ]) ]);
           (".build", Dir [ ("gen.swift", File (Content "")) ]);
           ("Examples", Dir [ ("Demo.swift", File (Content "")); ("data.json", File (Content "")) ]);
           ("Notes.md", File (Content "")) ]).

(** A lint log with two diagnostics for Foo.src, one for Bar.src and four
    lines that are none, three of them with colons: a note, a marker in
    capitals and a marker without its space. *)
Definition sample_log : string :=
  "Linting Swift files" ++ nl
  ++ "Foo.src:10:5: warning: Line Length Violation" ++ nl
  ++ "Foo.src:10:5: note: see the rule configuration" ++ nl
  ++ "Bar.src:3:1: error: Force Cast Violation" ++ nl
  ++ "Baz.src:1:1: Warning: Identifier Name" ++ nl
  ++ "Foo.src:22:9: warning: Trailing Whitespace" ++ nl
  ++ "Baz.src:2:1: error:Todo" ++ nl.

(** A scan root that holds that log. *)
Definition logged : world :=
  tree_world "/home/dev" "proj"
    (Dir [ ("Foo.swift", File (Content "let foo = 1"));
           ("swiftlint_report.txt", File (Content sample_log)) ]).

(** A scan root given as an absolute path, with a lint log that names the
    files by their absolute paths. *)
Definition absolute_log : world :=
  tree_world "/home/dev" "/srv/proj"
    (Dir [ ("a.swift", File (Content "let a = try! load()"));
           ("b.swift", File (Content "let b = 2"));
           ("swiftlint_report.txt",
            File (Content ("/srv/proj/a.swift:1:9: warning: Force Try Violation" ++ nl
                           ++ "/srv/proj/a.swift:1:1: error: Identifier Name Violation"
                           ++ nl))) ]).

(** * Properties *)

(** ** Order of binary64 values *)

Module FloatOrder.

Ltac cmp_cases :=
  repeat match goal with
  | |- context [PosDef.Pos.compare_cont Eq ?a ?b] =>
      change (PosDef.Pos.compare_cont Eq a b) with (Pos.compare a b);
      destruct (Pos.compare_spec a b)
  | H : context [PosDef.Pos.compare_cont Eq ?a ?b] |- _ =>
      change (PosDef.Pos.compare_cont Eq a b) with (Pos.compare a b) in H;
      destruct (Pos.compare_spec a b)
  | |- context [Z.compare ?a ?b] => destruct (Z.compare_spec a b)
  | H : context [Z.compare ?a ?b] |- _ => destruct (Z.compare_spec a b)
  end.

Ltac by_cases := cmp_cases; subst; simpl in *; try congruence; try lia.

Lemma SFltb_neg_trans (a b c : spec_float) :
  b <> S754_nan -> SFltb a b = false -> SFltb b c = false -> SFltb a c = false.
Proof.
  unfold SFltb, SFcompare.
  destruct a as [[]|[]| |[] m1 e1], b as [[]|[]| |[] m2 e2], c as [[]|[]| |[] m3 e3];
    intros Hb; try congruence; try reflexivity; try discriminate;
    intros H1 H2; by_cases.
Qed.

Lemma SFeqb_not_ltb (a b k : spec_float) :
  SFeqb a k = true -> SFeqb b k = true -> SFltb a b = false.
Proof.
  unfold SFeqb, SFltb, SFcompare.
  destruct a as [[]|[]| |[] m1 e1], b as [[]|[]| |[] m2 e2], k as [[]|[]| |[] m3 e3];
    try discriminate; try reflexivity; intros H1 H2; by_cases.
Qed.

Lemma SFltb_false_leb (a b : spec_float) :
  a <> S754_nan -> b <> S754_nan -> SFltb a b = false -> SFleb b a = true.
Proof.
  unfold SFleb, SFltb, SFcompare.
  destruct a as [[]|[]| |[] m1 e1], b as [[]|[]| |[] m2 e2];
    try congruence; try reflexivity; try discriminate; intros _ _ H1; by_cases.
Qed.

Lemma SFltb_asym (a b : spec_float) :
  SFltb a b = true -> SFltb b a = false.
Proof.
  unfold SFltb, SFcompare.
  destruct a as [[]|[]| |[] m1 e1], b as [[]|[]| |[] m2 e2];
    try discriminate; try reflexivity; intros H1; by_cases.
Qed.

Lemma SFleb_not_ltb (a b : spec_float) :
  SFleb b a = true -> SFltb a b = false.
Proof.
  unfold SFleb, SFltb, SFcompare.
  destruct a as [[]|[]| |[] m1 e1], b as [[]|[]| |[] m2 e2];
    try discriminate; try reflexivity; intros H1; by_cases.
Qed.

Lemma is_nan_spec (x : float) : is_nan x = false <-> Prim2SF x <> S754_nan.
Proof.
  unfold is_nan. rewrite FloatAxioms.eqb_spec. unfold SFeqb, SFcompare.
  destruct (Prim2SF x) as [[]|[]| |[] m e]; simpl; try (split; congruence);
    rewrite ?Z.compare_refl;
    change (PosDef.Pos.compare_cont Eq m m) with (Pos.compare m m);
    rewrite Pos.compare_refl; simpl; split; congruence.
Qed.

(** [<] on floats, for values that are numbers. *)
Lemma ltb_neg_trans (a b c : float) :
  is_nan b = false ->
  (a <? b)%float = false -> (b <? c)%float = false -> (a <? c)%float = false.
Proof.
  rewrite is_nan_spec, !FloatAxioms.ltb_spec. apply SFltb_neg_trans.
Qed.

Lemma eqb_not_ltb (a b k : float) :
  (a =? k)%float = true -> (b =? k)%float = true -> (a <? b)%float = false.
Proof.
  rewrite !FloatAxioms.eqb_spec, FloatAxioms.ltb_spec. apply SFeqb_not_ltb.
Qed.

Lemma ltb_asym (a b : float) :
  (a <? b)%float = true -> (b <? a)%float = false.
Proof. rewrite !FloatAxioms.ltb_spec. apply SFltb_asym. Qed.

Lemma leb_not_ltb (a b : float) :
  (b <=? a)%float = true -> (a <? b)%float = false.
Proof. rewrite FloatAxioms.leb_spec, FloatAxioms.ltb_spec. apply SFleb_not_ltb. Qed.

Lemma ltb_false_leb (a b : float) :
  is_nan a = false -> is_nan b = false ->
  (a <? b)%float = false -> (b <=? a)%float = true.
Proof.
  rewrite !is_nan_spec, FloatAxioms.ltb_spec, FloatAxioms.leb_spec.
  apply SFltb_false_leb.
Qed.

End FloatOrder.

(** ** Sign of binary64 sums and products *)

Module FloatSign.

(** Zero, a positive number or positive infinity. *)
Definition nonneg (x : spec_float) : Prop :=
  match x with
  | S754_zero _ => True
  | S754_infinity s | S754_finite s _ _ => s = false
  | S754_nan => False
  end.

Lemma shr_1_nonneg (mrs : shr_record) :
  (0 <= shr_m mrs)%Z -> (0 <= shr_m (shr_1 mrs))%Z.
Proof.
  destruct mrs as [m r s]. cbn [shr_m].
  destruct m as [|[p|p|]|[p|p|]]; cbn; lia.
Qed.

Lemma iter_shr_1_nonneg (p : positive) :
  forall mrs, (0 <= shr_m mrs)%Z -> (0 <= shr_m (@SpecFloat.iter_pos _ shr_1 p mrs))%Z.
Proof.
  induction p as [p IH|p IH|]; intros mrs H; cbn [SpecFloat.iter_pos].
  - apply IH, IH, shr_1_nonneg, H.
  - apply IH, IH, H.
  - apply shr_1_nonneg, H.
Qed.

Lemma shr_fexp_nonneg (prec emax m e : Z) (l : location) :
  (0 <= m)%Z -> (0 <= shr_m (fst (shr_fexp prec emax m e l)))%Z.
Proof.
  intros H. unfold shr_fexp, shr.
  assert (H0 : (0 <= shr_m (shr_record_of_loc m l))%Z)
    by (destruct l as [|[]]; exact H).
  destruct (fexp prec emax (Zdigits2 m + e) - e)%Z; cbn [fst]; trivial.
  now apply iter_shr_1_nonneg.
Qed.

Lemma round_nearest_even_nonneg (m : Z) (l : location) :
  (0 <= m)%Z -> (0 <= round_nearest_even m l)%Z.
Proof.
  intros H. destruct l as [|[]]; cbn; try lia. destruct (Z.even m); lia.
Qed.

Lemma binary_round_aux_nonneg (prec emax m e : Z) (l : location) :
  (0 <= m)%Z -> nonneg (binary_round_aux prec emax false m e l).
Proof.
  intros H. unfold binary_round_aux.
  pose proof (shr_fexp_nonneg prec emax m e l H) as H1.
  destruct (shr_fexp prec emax m e l) as [mrs' e']. cbn [fst] in H1.
  pose proof (shr_fexp_nonneg prec emax _ e' loc_Exact
                (round_nearest_even_nonneg _ (loc_of_shr_record mrs') H1)) as H2.
  destruct (shr_fexp prec emax _ e' loc_Exact) as [mrs'' e'']. cbn [fst] in H2.
  destruct (shr_m mrs''); [exact I | | lia].
  destruct (e'' <=? emax - prec)%Z; reflexivity.
Qed.

Lemma binary_normalize_nonneg (prec emax m e : Z) :
  (0 <= m)%Z -> nonneg (binary_normalize prec emax m e false).
Proof.
  intros H. destruct m as [|p|p]; [exact I | | lia].
  unfold binary_normalize, binary_round.
  destruct (shl_align _ _ _) as [mz ez]. now apply binary_round_aux_nonneg.
Qed.

Lemma SFadd_nonneg (prec emax : Z) (x y : spec_float) :
  nonneg x -> nonneg y -> nonneg (SFadd prec emax x y).
Proof.
  destruct x as [sx|sx| |sx mx ex], y as [sy|sy| |sy my ey]; cbn [nonneg SFadd];
    intros Hx Hy; subst; try contradiction; try exact I; try reflexivity.
  - now destruct sx, sy.
  - apply binary_normalize_nonneg. cbn. lia.
Qed.

Lemma SFmul_nonneg (prec emax : Z) (x : spec_float) (m : positive) (e : Z) :
  nonneg x -> nonneg (SFmul prec emax x (S754_finite false m e)).
Proof.
  destruct x as [sx|sx| |sx mx ex]; cbn [nonneg SFmul]; intros Hx; subst;
    try contradiction; try exact I; try reflexivity.
  now apply binary_round_aux_nonneg.
Qed.

Lemma nonneg_not_nan (x : float) : nonneg (Prim2SF x) -> is_nan x = false.
Proof.
  intros H. unfold is_nan. rewrite FloatAxioms.eqb_spec. unfold SFeqb, SFcompare.
  destruct (Prim2SF x) as [[]|[]| |[] m e]; cbn in H; try contradiction; try discriminate;
    try reflexivity.
  rewrite Z.compare_refl. change (PosDef.Pos.compare_cont Eq m m) with (Pos.compare m m).
  now rewrite Pos.compare_refl.
Qed.

Lemma of_uint63_nonneg (n : int) : nonneg (Prim2SF (of_uint63 n)).
Proof.
  rewrite FloatAxioms.of_uint63_spec. apply binary_normalize_nonneg.
  apply Uint63.to_Z_bounded.
Qed.

Lemma add_nonneg (x y : float) :
  nonneg (Prim2SF x) -> nonneg (Prim2SF y) -> nonneg (Prim2SF (x + y)).
Proof. rewrite FloatAxioms.add_spec. apply SFadd_nonneg. Qed.

Lemma mul_nonneg (x w : float) (m : positive) (e : Z) :
  Prim2SF w = S754_finite false m e ->
  nonneg (Prim2SF x) -> nonneg (Prim2SF (x * w)).
Proof. intros Hw. rewrite FloatAxioms.mul_spec, Hw. apply SFmul_nonneg. Qed.

End FloatSign.

(** ** The stable descending sort *)

Section SortDesc.
Context {A : Type} (key : A -> float).

Lemma insert_desc_perm (x : A) (l : list A) :
  Permutation (insert_desc key x l) (x :: l).
Proof.
  induction l as [|y l IH]; simpl; [reflexivity|].
  destruct (key x <? key y)%float; [|reflexivity].
  rewrite IH. apply perm_swap.
Qed.

Lemma sort_desc_perm (l : list A) : Permutation (sort_desc key l) l.
Proof.
  induction l as [|x l IH]; simpl; [reflexivity|].
  rewrite insert_desc_perm. now constructor.
Qed.

Lemma insert_desc_filter (k : float) (x : A) (l : list A) :
  List.filter (fun a => (key a =? k)%float) (insert_desc key x l)
  = List.filter (fun a => (key a =? k)%float) (x :: l).
Proof.
  induction l as [|y l IH]; [reflexivity|].
  cbn [insert_desc]. destruct (key x <? key y)%float eqn:Hlt; [|reflexivity].
  cbn [List.filter] in *. rewrite IH.
  destruct (key x =? k)%float eqn:Hx, (key y =? k)%float eqn:Hy; try reflexivity.
  rewrite (FloatOrder.eqb_not_ltb _ _ _ Hx Hy) in Hlt. discriminate.
Qed.

Lemma sort_desc_stable (k : float) (l : list A) :
  List.filter (fun a => (key a =? k)%float) (sort_desc key l)
  = List.filter (fun a => (key a =? k)%float) l.
Proof.
  induction l as [|x l IH]; [reflexivity|].
  cbn [sort_desc fold_right]. rewrite insert_desc_filter.
  cbn [List.filter]. fold (sort_desc key l). now rewrite IH.
Qed.

Lemma insert_desc_sorted (x : A) (l : list A) :
  is_nan (key x) = false ->
  Forall (fun a => is_nan (key a) = false) l ->
  StronglySorted (not_below key) l ->
  StronglySorted (not_below key) (insert_desc key x l).
Proof.
  intros Hx Hl Hs. induction Hs as [|y l Hs IH Hy]; simpl.
  - repeat constructor.
  - inversion Hl as [|? ? Hny Hnl]; subst.
    destruct (key x <? key y)%float eqn:Hlt.
    + constructor; [now apply IH|].
      assert (Hyx : not_below key y x).
      { apply FloatOrder.ltb_false_leb; trivial.
        now apply FloatOrder.ltb_asym. }
      apply (Permutation_Forall (Permutation_sym (insert_desc_perm x l))).
      now constructor.
    + assert (Hxy : not_below key x y) by now apply FloatOrder.ltb_false_leb.
      constructor; [now constructor|].
      constructor; [exact Hxy|].
      rewrite Forall_forall in Hy, Hnl. apply Forall_forall. intros z Hz.
      unfold not_below in *.
      destruct (key x <? key z)%float eqn:Hxz.
      * exfalso.
        assert (Hyz : (key y <? key z)%float = false)
          by apply FloatOrder.leb_not_ltb, (Hy z Hz).
        rewrite (FloatOrder.ltb_neg_trans _ _ _ Hny Hlt Hyz) in Hxz. discriminate.
      * apply FloatOrder.ltb_false_leb; auto.
Qed.

Lemma sort_desc_sorted (l : list A) :
  Forall (fun a => is_nan (key a) = false) l ->
  StronglySorted (not_below key) (sort_desc key l).
Proof.
  induction 1 as [|x l Hx Hl IH]; simpl; [constructor|].
  apply insert_desc_sorted; trivial.
  apply (Permutation_Forall (Permutation_sym (sort_desc_perm l))), Hl.
Qed.
End SortDesc.

(** ** Matches of the patterns *)

Lemma plus_k_rest (c : cclass) (s : list ascii)
    (k : bool -> list ascii -> option nat) (n : nat) :
  plus_k c s k = Some n ->
  exists pw rest, k pw rest = Some n /\ List.length rest + 1 <= List.length s.
Proof.
  induction s as [|a s IH]; cbn [plus_k]; [discriminate|].
  destruct (in_class c a); [|discriminate].
  destruct (plus_k c s k) as [n'|] eqn:Hp.
  - intros H. injection H as ->. destruct (IH eq_refl) as (pw & rest & Hk & Hl).
    exists pw, rest. split; [exact Hk | cbn [List.length]; lia].
  - intros H. exists (is_word a), s. split; [exact H | cbn [List.length]; lia].
Qed.

(** A match hands to its continuation a suffix of the text, a proper one
    when the pattern consumes. *)
Lemma matches_rest (r : regex) :
  forall (pw : bool) (s : list ascii) (k : bool -> list ascii -> option nat) (n : nat),
    matches r pw s k = Some n ->
    exists pw' rest,
      k pw' rest = Some n
      /\ List.length rest + (if consumes r then 1 else 0) <= List.length s.
Proof.
  induction r as [|a|c| |r IH|r1 IH1 r2 IH2|r1 IH1 r2 IH2]; intros pw s k n;
    cbn [matches consumes].
  - intros H. exists pw, s. split; [exact H | lia].
  - destruct s as [|b s]; [discriminate|]. destruct (a =? b)%char; [|discriminate].
    intros H. exists (is_word b), s. split; [exact H | cbn [List.length]; lia].
  - apply plus_k_rest.
  - destruct (xorb pw (next_word s)); [|discriminate].
    intros H. exists pw, s. split; [exact H | lia].
  - destruct (matches r pw s _); [discriminate|].
    intros H. exists pw, s. split; [exact H | lia].
  - intros H. destruct (IH1 _ _ _ _ H) as (pw1 & s1 & H1 & Hl1).
    destruct (IH2 _ _ _ _ H1) as (pw2 & s2 & H2 & Hl2).
    exists pw2, s2. split; [exact H2|].
    destruct (consumes r1), (consumes r2); cbn [orb]; lia.
  - destruct (matches r1 pw s k) as [n1|] eqn:H1.
    + intros H. injection H as ->. destruct (IH1 _ _ _ _ H1) as (pw' & rest & Hk & Hl).
      exists pw', rest. split; [exact Hk|].
      destruct (consumes r1), (consumes r2); cbn [andb]; lia.
    + intros H. destruct (IH2 _ _ _ _ H) as (pw' & rest & Hk & Hl).
      exists pw', rest. split; [exact Hk|].
      destruct (consumes r1), (consumes r2); cbn [andb]; lia.
Qed.

(** No match of a consuming pattern is empty. *)
Lemma match_at_positive (r : regex) (pw : bool) (s : list ascii) (n : nat) :
  consumes r = true -> match_at r pw s = Some n -> 0 < n.
Proof.
  intros Hc H. apply matches_rest in H as (pw' & rest & Hk & Hl).
  rewrite Hc in Hl. injection Hk as <-. lia.
Qed.

(** Every pattern of the script consumes. *)
Lemma patterns_consume :
  Forall (fun r => consumes r = true)
    (scoring_patterns ++ type_patterns ++ [func_pattern]).
Proof. repeat constructor. Qed.

(** The matches of a one-character pattern are the occurrences of the
    character. *)
Lemma count_from_chr (a : ascii) (s : list ascii) :
  forall pw, count_from (Chr a) 0 pw s = count_occ Ascii.ascii_dec s a.
Proof.
  induction s as [|b s IH]; intros pw; [reflexivity|].
  cbn [count_from count_occ]. unfold match_at. cbn [matches].
  destruct (Ascii.eqb_spec a b) as [->|Hne].
  - destruct (Ascii.ascii_dec b b) as [_|Hn]; [|congruence].
    replace (List.length (b :: s) - List.length s) with 1 by (cbn [List.length]; lia).
    cbn [Nat.pred]. now rewrite IH.
  - destruct (Ascii.ascii_dec b a) as [He|_]; [congruence|]. apply IH.
Qed.

(** The exclamation marks the force-unwrap pattern matches. *)
Lemma count_from_unwrap (s : list ascii) :
  forall pw, count_from re_force_unwrap 0 pw s = unwrap_count s.
Proof.
  induction s as [|a s IH]; intros pw; [reflexivity|].
  cbn [count_from unwrap_count]. unfold match_at, re_force_unwrap. cbn [matches].
  rewrite (Ascii.eqb_sym a "!"). destruct ("!" =? a)%char; cbn [andb].
  - destruct s as [|b s'].
    + cbn [negb List.length Nat.sub Nat.pred Nat.add]. now rewrite IH.
    + rewrite (Ascii.eqb_sym b "="). destruct ("=" =? b)%char; cbn [negb Nat.add].
      * apply IH.
      * replace (List.length (a :: b :: s') - List.length (b :: s')) with 1
          by (cbn [List.length]; lia).
        cbn [Nat.pred]. now rewrite IH.
  - apply IH.
Qed.

(** ** Matches of literals and keywords *)

(** A literal matches where the text starts with it. *)
Lemma matches_lit (p : string) :
  forall pw s k,
    matches (lit p) pw s k
    = match starts p s with
      | Some rest => k (after p pw) rest
      | None => None
      end.
Proof.
  induction p as [|a p IH]; intros pw s k; [reflexivity|].
  cbn [lit matches starts after]. destruct s as [|b s]; [reflexivity|].
  destruct (Ascii.eqb_spec a b) as [->|]; [apply IH | reflexivity].
Qed.

Lemma starts_app (p : string) :
  forall s rest, starts p s = Some rest -> s = (list_ascii_of_string p ++ rest)%list.
Proof.
  induction p as [|a p IH]; intros s rest; cbn [starts list_ascii_of_string app].
  - now intros [= ->].
  - destruct s as [|b s]; [discriminate|].
    destruct (Ascii.eqb_spec a b) as [->|]; [|discriminate].
    intros H. now rewrite (IH _ _ H).
Qed.

Lemma starts_length (p : string) (s rest : list ascii) :
  starts p s = Some rest -> List.length s - List.length rest = String.length p.
Proof.
  intros H. rewrite (starts_app _ _ _ H), length_app.
  assert (List.length (list_ascii_of_string p) = String.length p).
  { clear. induction p; cbn; congruence. }
  lia.
Qed.

Lemma starts_next_word (p : string) (s rest : list ascii) :
  starts p s = Some rest -> p <> "" -> next_word s = first_word p.
Proof.
  destruct p as [|a p]; [congruence|]. cbn [starts first_word].
  destruct s as [|b s]; [discriminate|].
  destruct (Ascii.eqb_spec a b) as [->|]; [reflexivity | discriminate].
Qed.

Lemma after_nonempty (p : string) (pw pw' : bool) : p <> "" -> after p pw = after p pw'.
Proof. destruct p; [congruence | reflexivity]. Qed.

(** The match of a bounded literal at a position. *)
Lemma match_at_bounded (left right : bool) (p : string) (pw : bool) (s : list ascii) :
  p <> "" ->
  (left = true -> first_word p = true) ->
  (right = true -> after p false = true) ->
  match_at (bounded left p right) pw s
  = if occurrence left p right pw s then Some (String.length p) else None.
Proof.
  intros Hp Hl Hr. unfold match_at, occurrence.
  assert (Hcore : forall pw',
    matches (if right then Seq (lit p) Bnd else lit p) pw' s
      (fun _ rest => Some (List.length s - List.length rest))
    = if match starts p s with
         | Some rest => negb right || negb (next_word rest)
         | None => false
         end
      then Some (String.length p) else None).
  { intros pw'. destruct right; cbn [matches negb orb]; rewrite matches_lit;
      destruct (starts p s) as [rest|] eqn:Hs; try reflexivity;
      rewrite ?(starts_length _ _ _ Hs); [|reflexivity].
    rewrite (after_nonempty p pw' false Hp), (Hr eq_refl).
    now destruct (next_word rest). }
  unfold bounded. destruct left; cbn [negb orb andb].
  - cbn [matches]. destruct (starts p s) as [rest|] eqn:Hs.
    + rewrite (starts_next_word _ _ _ Hs Hp), (Hl eq_refl).
      destruct pw; cbn [xorb negb andb]; [reflexivity|].
      fold (matches (if right then Seq (lit p) Bnd else lit p) false s
              (fun _ rest => Some (List.length s - List.length rest))).
      rewrite Hcore; rewrite ?Hs; reflexivity.
    + rewrite andb_false_r. destruct (xorb pw (next_word s)); [|reflexivity].
      fold (matches (if right then Seq (lit p) Bnd else lit p) pw s
              (fun _ rest => Some (List.length s - List.length rest))).
      rewrite Hcore; rewrite ?Hs; reflexivity.
  - apply Hcore.
Qed.

(** When a match is found exactly where [here] holds and no position inside
    a match satisfies [here], the scan counts the positions of [here]. *)
Lemma count_from_positions (r : regex) (here : bool -> list ascii -> bool) :
  (forall pw s, match_at r pw s = None -> here pw s = false) ->
  (forall pw s n, match_at r pw s = Some n ->
     here pw s = true
     /\ match s with
        | [] => True
        | a :: s' => quiet here (Nat.pred n) (is_word a) s'
        end) ->
  forall s skip pw,
    quiet here skip pw s -> count_from r skip pw s = positions here pw s.
Proof.
  intros Hnone Hsome. induction s as [|a s IH]; intros skip pw Hq.
  - cbn [count_from positions]. destruct skip as [|skip].
    + destruct (match_at r pw []) as [n|] eqn:Hm.
      * now rewrite (proj1 (Hsome _ _ _ Hm)).
      * now rewrite (Hnone _ _ Hm).
    + destruct Hq as [-> _]. reflexivity.
  - cbn [count_from positions]. destruct skip as [|skip].
    + destruct (match_at r pw (a :: s)) as [n|] eqn:Hm.
      * destruct (Hsome _ _ _ Hm) as [-> Hq']. now rewrite (IH _ _ Hq').
      * rewrite (Hnone _ _ Hm). now rewrite (IH 0 _ I).
    + destruct Hq as [-> Hq]. now rewrite (IH _ _ Hq).
Qed.

Lemma clash_starts (p : string) :
  forall q rest, clash p q = true -> starts p (list_ascii_of_string q ++ rest) = None.
Proof.
  induction p as [|a p IH]; intros q rest; [discriminate|].
  destruct q as [|b q]; [discriminate|]. cbn [clash starts list_ascii_of_string app].
  destruct (Ascii.eqb a b); cbn [negb orb]; [apply IH | reflexivity].
Qed.

Lemma isolated_quiet (left right : bool) (p : string) (q : string) :
  forall prev rest,
    isolated left p prev q = true ->
    quiet (occurrence left p right) (String.length q) (is_word prev)
      (list_ascii_of_string q ++ rest).
Proof.
  induction q as [|b q IH]; intros prev rest H; [exact I|].
  cbn [isolated] in H. apply andb_prop in H as [H1 H2].
  cbn [String.length quiet list_ascii_of_string app]. split; [|now apply IH].
  unfold occurrence. apply orb_prop in H1 as [H1|H1].
  - apply andb_prop in H1 as [-> ->]. reflexivity.
  - change (b :: list_ascii_of_string q ++ rest)%list
      with (list_ascii_of_string (String b q) ++ rest)%list.
    rewrite (clash_starts _ _ _ H1). apply andb_false_r.
Qed.

Lemma occurrence_text (left right : bool) (p : string) (pw : bool) (s : list ascii) :
  occurrence left p right pw s = true ->
  exists rest, s = (list_ascii_of_string p ++ rest)%list.
Proof.
  unfold occurrence. intros H. apply andb_prop in H as [_ H].
  destruct (starts p s) as [rest|] eqn:Hs; [|discriminate].
  exists rest. now apply starts_app.
Qed.

(** The matches of a bounded literal are the positions at which it
    stands. *)
Lemma findall_bounded (left right : bool) (p content : string) :
  well_bounded left p right = true ->
  findall_len (bounded left p right) content
  = positions (occurrence left p right) false (list_ascii_of_string content).
Proof.
  intros H. destruct p as [|a q]; [discriminate|].
  cbn [well_bounded] in H.
  apply andb_prop in H as [H Hiso]. apply andb_prop in H as [Hl Hr].
  assert (Hne : String a q <> "") by discriminate.
  assert (Hl' : left = true -> first_word (String a q) = true)
    by (intros ->; exact Hl).
  assert (Hr' : right = true -> after (String a q) false = true)
    by (intros ->; exact Hr).
  unfold findall_len. apply count_from_positions; [| |exact I].
  - intros pw s. rewrite (match_at_bounded _ _ _ _ _ Hne Hl' Hr').
    now destruct (occurrence left (String a q) right pw s).
  - intros pw s n. rewrite (match_at_bounded _ _ _ _ _ Hne Hl' Hr').
    destruct (occurrence left (String a q) right pw s) eqn:Ho; [|discriminate].
    intros [= <-]. split; [reflexivity|].
    destruct (occurrence_text _ _ _ _ _ Ho) as [rest ->].
    cbn [list_ascii_of_string app String.length Nat.pred].
    now apply isolated_quiet.
Qed.

(** The matches of a literal are what [str.count] counts. *)
Lemma count_from_lit (p : string) :
  p <> "" ->
  forall s skip pw, count_from (lit p) skip pw s = count_skip p skip s.
Proof.
  intros Hp.
  assert (Hm : forall pw s,
             match_at (lit p) pw s
             = match starts p s with Some _ => Some (String.length p) | None => None end).
  { intros pw s.
    pose proof (match_at_bounded false false p pw s Hp) as E.
    unfold bounded in E. rewrite E by discriminate.
    unfold occurrence. cbn [negb orb andb]. now destruct (starts p s). }
  induction s as [|a s IH]; intros skip pw.
  - cbn [count_from count_skip]. rewrite Hm.
    destruct p; [congruence|]. cbn [starts]. now destruct skip.
  - cbn [count_from count_skip]. destruct skip as [|skip]; [|apply IH].
    rewrite Hm. destruct (starts p (a :: s)); now rewrite IH.
Qed.

Lemma match_at_alt (r1 r2 : regex) (pw : bool) (s : list ascii) :
  match_at (Seq Bnd (Seq (Alt r1 r2) Bnd)) pw s
  = match match_at (Seq Bnd (Seq r1 Bnd)) pw s with
    | Some n => Some n
    | None => match_at (Seq Bnd (Seq r2 Bnd)) pw s
    end.
Proof.
  unfold match_at. cbn [matches]. destruct (xorb pw (next_word s)); [|reflexivity].
  now destruct (matches r1 pw s _).
Qed.

Lemma match_at_alts (ks : list string) :
  forall kw pw s,
    Forall (fun kw => well_bounded true kw true = true) (kw :: ks) ->
    match_at (Seq Bnd (Seq (alts kw ks) Bnd)) pw s = first_word_len (kw :: ks) pw s.
Proof.
  assert (H1 : forall kw pw s,
             well_bounded true kw true = true ->
             match_at (Seq Bnd (Seq (lit kw) Bnd)) pw s
             = if occurrence true kw true pw s then Some (String.length kw) else None).
  { intros kw pw s H. destruct kw as [|a q]; [discriminate|].
    cbn [well_bounded] in H. apply andb_prop in H as [H _].
    apply andb_prop in H as [Hl Hr].
    apply (match_at_bounded true true); [discriminate | intros _; exact Hl
                                        | intros _; exact Hr]. }
  induction ks as [|k ks IH]; intros kw pw s H; inversion H as [|? ? Hkw Hks]; subst.
  - cbn [alts first_word_len]. rewrite (H1 _ _ _ Hkw).
    now destruct (occurrence true kw true pw s).
  - cbn [alts]. rewrite match_at_alt, (H1 _ _ _ Hkw), (IH _ _ _ Hks).
    cbn [first_word_len]. now destruct (occurrence true kw true pw s).
Qed.

Lemma quiet_any (kws : list string) (n : nat) :
  forall pw s,
    Forall (fun kw => quiet (occurrence true kw true) n pw s) kws ->
    quiet (any_word kws) n pw s.
Proof.
  induction n as [|n IH]; intros pw s H; [exact I|]. cbn [quiet]. split.
  - apply not_true_is_false. intros Ha. apply existsb_exists in Ha as (kw & Hin & Ho).
    rewrite List.Forall_forall in H. destruct (H kw Hin) as [Hf _]. congruence.
  - destruct s as [|a s]; [exact I|]. apply IH.
    eapply List.Forall_impl; [|exact H]. now intros kw [_ Hq].
Qed.

(** The matches of a bounded alternation of keywords are the positions at
    which one of them stands as a whole word. *)
Lemma findall_alts (kw : string) (ks : list string) (content : string) :
  Forall (fun kw => well_bounded true kw true = true) (kw :: ks) ->
  apart (kw :: ks) = true ->
  findall_len (Seq Bnd (Seq (alts kw ks) Bnd)) content
  = positions (any_word (kw :: ks)) false (list_ascii_of_string content).
Proof.
  intros Hwb Hap. unfold findall_len. apply count_from_positions; [| |exact I].
  - intros pw s. rewrite (match_at_alts _ _ _ _ Hwb). unfold any_word.
    generalize (kw :: ks). clear. intros l.
    induction l as [|k l IH]; [reflexivity|]. cbn [first_word_len existsb].
    destruct (occurrence true k true pw s); [discriminate | exact IH].
  - intros pw s n. rewrite (match_at_alts _ _ _ _ Hwb).
    unfold apart in Hap. rewrite forallb_forall in Hap.
    assert (Hfirst : forall l, first_word_len l pw s = Some n ->
                     exists k, In k l /\ occurrence true k true pw s = true
                               /\ n = String.length k).
    { clear. induction l as [|k l IH]; [discriminate|]. cbn [first_word_len].
      destruct (occurrence true k true pw s) eqn:Ho.
      - intros [= <-]. exists k. split; [now left | now split].
      - intros Hl. destruct (IH Hl) as (k' & Hin & Hk'). exists k'.
        split; [now right | exact Hk']. }
    intros Hn. destruct (Hfirst _ Hn) as (k & Hin & Ho & ->). split.
    + apply existsb_exists. exists k. now split.
    + destruct (occurrence_text _ _ _ _ _ Ho) as [rest ->].
      specialize (Hap k Hin). destruct k as [|a q]; [discriminate|].
      rewrite forallb_forall in Hap.
      cbn [list_ascii_of_string app String.length Nat.pred].
      apply quiet_any. apply List.Forall_forall. intros k' Hk'.
      apply isolated_quiet. now apply Hap.
Qed.

Lemma occurrence_head (left right : bool) (a : ascii) (q : string) (pw : bool)
    (s : list ascii) :
  occurrence left (String a q) right pw s = true -> exists s', s = a :: s'.
Proof.
  intros H. destruct (occurrence_text _ _ _ _ _ H) as [rest ->]. now eexists.
Qed.

Lemma list_sum_cons (x : nat) (l : list nat) : list_sum (x :: l) = x + list_sum l.
Proof. reflexivity. Qed.

Lemma any_word_split (kws : list string) :
  distinct_heads kws = true ->
  forall pw s,
    (if any_word kws pw s then 1 else 0)
    = list_sum (map (fun kw => if occurrence true kw true pw s then 1 else 0) kws).
Proof.
  induction kws as [|kw ks IH]; intros H pw s; [reflexivity|].
  cbn [distinct_heads] in H. destruct kw as [|a q]; [discriminate|].
  apply andb_prop in H as [Hd Hks]. unfold any_word in *. cbn [existsb map].
  rewrite list_sum_cons, <- (IH Hks).
  destruct (occurrence true (String a q) true pw s) eqn:Ho; [|reflexivity].
  cbn [orb]. destruct (existsb _ ks) eqn:He; [|reflexivity]. exfalso.
  apply existsb_exists in He as (k & Hin & Hk).
  rewrite forallb_forall in Hd. specialize (Hd k Hin).
  destruct k as [|b q']; [discriminate|].
  destruct (occurrence_head _ _ _ _ _ _ Ho) as [s1 ->].
  destruct (occurrence_head _ _ _ _ _ _ Hk) as [s2 [= ->]].
  now rewrite Ascii.eqb_refl in Hd.
Qed.

Lemma positions_any_word (kws : list string) :
  distinct_heads kws = true ->
  forall s pw,
    positions (any_word kws) pw s
    = list_sum (map (fun kw => positions (occurrence true kw true) pw s) kws).
Proof.
  intros H. induction s as [|a s IH]; intros pw; cbn [positions].
  - rewrite (any_word_split _ H). rewrite Nat.add_0_r. f_equal. apply map_ext.
    intros kw. now rewrite Nat.add_0_r.
  - rewrite (any_word_split _ H), IH. clear.
    induction kws as [|kw ks IHk]; [reflexivity|]. cbn [map].
    rewrite !list_sum_cons, <- IHk. lia.
Qed.

(** What each of the fourteen scoring patterns counts. *)
Lemma pattern_counts (content : string) :
  let text := list_ascii_of_string content in
  findall_len re_brace content = count_occ Ascii.ascii_dec text "{"%char
  /\ findall_len re_conditional content
     = whole_words "if" text + whole_words "guard" text + whole_words "switch" text
       + whole_words "while" text + whole_words "for" text
  /\ findall_len re_force_unwrap content = unwrap_count text
  /\ findall_len re_force_cast content = occurrences "as!" text
  /\ findall_len (lit "try?") content = occurrences "try?" text
  /\ findall_len (lit "try!") content = occurrences "try!" text
  /\ findall_len (lit "?.") content = occurrences "?." text
  /\ findall_len (lit "??") content = str_count "??" text
  /\ findall_len (lit "@escaping") content = occurrences "@escaping" text
  /\ findall_len (Seq Bnd (Seq (lit "closure") Bnd)) content = whole_words "closure" text
  /\ findall_len (Seq Bnd (lit "init?")) content
     = positions (occurrence true "init?" false) false text
  /\ findall_len (Seq Bnd (Seq (lit "deinit") Bnd)) content = whole_words "deinit" text
  /\ findall_len (Seq (lit "@objc") Bnd) content
     = positions (occurrence false "@objc" true) false text
  /\ findall_len (Seq Bnd (Seq (lit "extension") Bnd)) content
     = whole_words "extension" text.
Proof.
  intros text. unfold occurrences, whole_words, str_count.
  split; [apply count_from_chr|]. split.
  { change re_conditional
      with (Seq Bnd (Seq (alts "if" ["guard"; "switch"; "while"; "for"]) Bnd)).
    rewrite findall_alts; [|repeat constructor | reflexivity].
    rewrite positions_any_word by reflexivity. cbn [map]. fold text.
    rewrite !list_sum_cons. cbn [list_sum]. unfold list_sum. cbn [foldr]. lia. }
  split; [apply count_from_unwrap|].
  split; [exact (findall_bounded false false "as!" content eq_refl)|].
  split; [exact (findall_bounded false false "try?" content eq_refl)|].
  split; [exact (findall_bounded false false "try!" content eq_refl)|].
  split; [exact (findall_bounded false false "?." content eq_refl)|].
  split; [apply count_from_lit; discriminate|].
  split; [exact (findall_bounded false false "@escaping" content eq_refl)|].
  split; [exact (findall_bounded true true "closure" content eq_refl)|].
  split; [exact (findall_bounded true false "init?" content eq_refl)|].
  split; [exact (findall_bounded true true "deinit" content eq_refl)|].
  split; [exact (findall_bounded false true "@objc" content eq_refl)|].
  exact (findall_bounded true true "extension" content eq_refl).
Qed.

(** ** The terms of the score *)

Lemma calculate_complexity_terms (content : string) :
  calculate_complexity content =
    (weighted content re_brace 0.1
     + weighted content re_conditional 0.2
     + weighted content re_force_unwrap 0.3
     + weighted content re_force_cast 0.3
     + fold_left PrimFloat.add
         (map (fun pw => weighted content pw.1 pw.2) complex_patterns) 0)%float.
Proof. reflexivity. Qed.

Lemma weighted_no_match (content : string) (r : regex) (weight : float) :
  findall_len r content = 0 -> weighted content r weight = (0 * weight)%float.
Proof. unfold weighted. now intros ->. Qed.

Lemma weighted_nonneg (content : string) (r : regex) (weight : float)
    (m : positive) (e : Z) :
  Prim2SF weight = S754_finite false m e ->
  FloatSign.nonneg (Prim2SF (weighted content r weight)).
Proof.
  intros Hw. unfold weighted, float_of_len.
  eapply FloatSign.mul_nonneg; [exact Hw | apply FloatSign.of_uint63_nonneg].
Qed.

(** The score is zero, a positive number or positive infinity. *)
Lemma calculate_complexity_nonneg (content : string) :
  FloatSign.nonneg (Prim2SF (calculate_complexity content)).
Proof.
  rewrite calculate_complexity_terms. unfold complex_patterns.
  cbn [map fold_left fst snd].
  repeat apply FloatSign.add_nonneg;
    try (eapply weighted_nonneg; vm_compute; reflexivity).
  vm_compute. exact I.
Qed.

Lemma sort_key_not_nan (m : FileMetrics) :
  FloatSign.nonneg (Prim2SF (complexity_score m)) -> is_nan (sort_key m) = false.
Proof.
  intros H. apply FloatSign.nonneg_not_nan. unfold sort_key.
  apply FloatSign.add_nonneg; [exact H|]. unfold float_of_len.
  eapply FloatSign.mul_nonneg; [vm_compute; reflexivity|].
  apply FloatSign.of_uint63_nonneg.
Qed.

(** ** The sections of the report *)

Lemma generate_report_sections (metrics : list FileMetrics) :
  let ranked := sort_desc sort_key metrics in
  generate_report metrics =
    ([ [Str nl; Str "Refactoring Priority Report"];
       [Str "========================="; Str nl];
       [Str "Top 10 Files Requiring Attention:"];
       [Str "--------------------------------"] ]
     ++ flat_map listing (firstn 10 ranked)
     ++ [ [Str nl; Str "Summary Statistics:"];
          [Str "------------------"] ]
     ++ summary ranked
     ++ [ [Str nl; Str "Refactoring Recommendations:"];
          [Str "---------------------------"] ]
     ++ flat_map recommend (firstn 5 ranked))%list.
Proof. reflexivity. Qed.

Lemma list_sum_map_perm {A : Type} (f : A -> nat) (l1 l2 : list A) :
  Permutation l1 l2 -> list_sum (map f l1) = list_sum (map f l2).
Proof.
  induction 1 as [|x l1 l2 _ IH|x y l|l1 l2 l3 _ IH1 _ IH2];
    unfold list_sum in *; simpl in *; lia.
Qed.

Lemma summary_perm (l1 l2 : list FileMetrics) :
  Permutation l1 l2 -> summary l1 = summary l2.
Proof.
  intros H. unfold summary.
  rewrite (Permutation_length H).
  now rewrite !(list_sum_map_perm _ _ _ H).
Qed.

(** ** Facts about strings *)

Lemma append_assoc (a b c : string) : (a ++ b) ++ c = a ++ b ++ c.
Proof. induction a as [|x a IH]; simpl; [reflexivity | now rewrite IH]. Qed.

Lemma append_nil_r (a : string) : a ++ "" = a.
Proof. induction a as [|x a IH]; simpl; [reflexivity | now rewrite IH]. Qed.

Lemma startswith_app (p s : string) :
  PyStr.startswith p s = true <-> exists t, s = p ++ t.
Proof.
  revert s. induction p as [|a p IH]; intros s; simpl.
  - split; eauto.
  - destruct s as [|b s].
    + split; [discriminate | intros [t Ht]; discriminate].
    + rewrite andb_true_iff, IH, Ascii.eqb_eq. split.
      * intros [-> [t ->]]. eauto.
      * intros [t Ht]. injection Ht as -> ->. eauto.
Qed.

Lemma contains_app (p s : string) :
  PyStr.contains p s = true <-> exists a b, s = a ++ p ++ b.
Proof.
  induction s as [|c s IH]; cbn [PyStr.contains]; rewrite orb_true_iff, startswith_app.
  - split.
    + intros [[t Ht]|?]; [|discriminate]. exists "", t. exact Ht.
    + intros [[|? a] [b H]]; [left; eauto | discriminate].
  - rewrite IH. split.
    + intros [[t Ht]|[a [b Hab]]].
      * exists "", t. exact Ht.
      * exists (String c a), b. simpl. now rewrite Hab.
    + intros [[|c' a] [b H]].
      * left. eauto.
      * right. simpl in H. injection H as -> ->. eauto.
Qed.

Lemma contains_trans (p q s : string) :
  PyStr.contains p q = true -> PyStr.contains q s = true -> PyStr.contains p s = true.
Proof.
  rewrite !contains_app. intros [a [b ->]] [a' [b' ->]].
  exists (a' ++ a), (b ++ b'). now rewrite !append_assoc.
Qed.

Lemma split_not_nil (sep : ascii) (s : string) : PyStr.split sep s <> [].
Proof.
  destruct s as [|a s]; cbn [PyStr.split]; [discriminate|].
  destruct (a =? sep)%char; [discriminate|].
  destruct (PyStr.split sep s); discriminate.
Qed.

(** The head of a split is the text before the first separator. *)
Lemma split_head_prefix (sep : ascii) (s : string) :
  PyStr.contains (String sep "") (PyStr.split_head sep s) = false
  /\ (PyStr.contains (String sep "") s = true ->
      exists rest, s = PyStr.split_head sep s ++ String sep rest).
Proof.
  unfold PyStr.split_head. induction s as [|a s [IH1 IH2]]; cbn [PyStr.split].
  - split; [reflexivity | discriminate].
  - destruct (Ascii.eqb_spec a sep) as [->|Hne].
    + split; [reflexivity | intros _; exists s; reflexivity].
    + assert (Hhd : (sep =? a)%char = false) by (apply Ascii.eqb_neq; congruence).
      pose proof (split_not_nil sep s) as Hnil.
      destruct (PyStr.split sep s) as [|hd tl]; [congruence|].
      cbn [PyStr.contains PyStr.startswith]. rewrite Hhd. cbn [andb orb].
      split; [exact IH1|].
      intros H. destruct (IH2 H) as [rest ->]. exists rest. reflexivity.
Qed.

Lemma is_diagnostic_colon (line : string) :
  is_diagnostic line = true -> PyStr.contains ":" line = true.
Proof.
  unfold is_diagnostic. rewrite orb_true_iff.
  intros [H|H]; (eapply contains_trans; [|exact H]); reflexivity.
Qed.

(** ** The lint map *)

Lemma lint_get_lint_line (m : gmap string nat) (line p : string) :
  lint_get (lint_line m line) p
  = lint_get m p
    + (if is_diagnostic line && (PyStr.split_head ":" line =? p) then 1 else 0).
Proof.
  unfold lint_line. destruct (is_diagnostic line); cbn [andb]; [|lia].
  unfold lint_get at 1. destruct (String.eqb_spec (PyStr.split_head ":" line) p) as [->|Hne].
  - now rewrite lookup_insert_eq.
  - rewrite lookup_insert_ne by exact Hne. unfold lint_get. lia.
Qed.

Lemma lint_get_fold (lines : list string) (m : gmap string nat) (p : string) :
  lint_get (fold_left lint_line lines m) p
  = lint_get m p
    + List.length (List.filter
        (fun l => is_diagnostic l && (PyStr.split_head ":" l =? p)) lines).
Proof.
  revert m. induction lines as [|l lines IH]; intros m; cbn [fold_left List.filter].
  - cbn. lia.
  - rewrite IH, lint_get_lint_line.
    destruct (is_diagnostic l && (PyStr.split_head ":" l =? p)); cbn [List.length]; lia.
Qed.

(** ** The events of a scan *)

Lemma visit_skipped (w : world) (root_dir : string) (lint : gmap string nat)
    (root : string) (f : string * read_result) :
  should_analyze_file (PosixPath.join root f.1) = false ->
  visit w root_dir lint root f = [].
Proof. unfold visit. now intros ->. Qed.

Lemma visit_unreadable (w : world) (root_dir : string) (lint : gmap string nat)
    (root name e : string) :
  should_analyze_file (PosixPath.join root name) = true ->
  visit w root_dir lint root (name, ReadError e)
  = [Failed [Str "Error processing "; Str (PosixPath.join root name); Str ": "; Str e]].
Proof. unfold visit. cbn [fst snd]. now intros ->. Qed.

Lemma visit_collected (w : world) (root_dir : string) (lint : gmap string nat)
    (root : string) (f : string * read_result) (m : FileMetrics) :
  In (Collected m) (visit w root_dir lint root f) <->
  exists content rel,
    f.2 = Content content
    /\ should_analyze_file (PosixPath.join root f.1) = true
    /\ PosixPath.relpath (cwd w) (PosixPath.join root f.1) root_dir = Some rel
    /\ m = metrics_of lint root f.1 content rel.
Proof.
  unfold visit. destruct f as [name r]. cbn [fst snd].
  destruct (should_analyze_file (PosixPath.join root name)); cbn [negb].
  - destruct r as [content|e].
    + destruct (PosixPath.relpath (cwd w) (PosixPath.join root name) root_dir) as [rel|].
      * cbn [In]. split.
        -- intros [H|[]]. injection H as <-. now exists content, rel.
        -- intros (c & rl & Hc & _ & Hr & ->). injection Hc as <-. injection Hr as <-.
           now left.
      * cbn [In]. split; [intros [H|[]]; discriminate|].
        intros (c & rl & _ & _ & Hr & _). discriminate.
    + cbn [In]. split; [intros [H|[]]; discriminate|].
      intros (c & rl & Hc & _). discriminate.
  - split; [intros []|]. intros (c & rl & _ & H & _). discriminate.
Qed.

Lemma in_collected (evs : list event) (m : FileMetrics) :
  In m (collected evs) <-> In (Collected m) evs.
Proof.
  unfold collected. rewrite in_flat_map. split.
  - intros [[m'|msg] [Hin H]]; cbn [In] in H; [|contradiction].
    destruct H as [->|[]]. exact Hin.
  - intros H. exists (Collected m). split; [exact H | now left].
Qed.

Lemma in_scan (w : world) (root_dir : string) (lint : gmap string nat) (ev : event) :
  In ev (scan w root_dir lint) <->
  exists root dirs files f,
    In (root, dirs, files) (walked w root_dir) /\ In f files
    /\ In ev (visit w root_dir lint root f).
Proof.
  unfold scan. rewrite in_flat_map. split.
  - intros [[[root dirs] files] [Hd Hev]]. cbn [fst snd] in Hev.
    apply in_flat_map in Hev as [f [Hf Hev]]. now exists root, dirs, files, f.
  - intros (root & dirs & files & f & Hd & Hf & Hev).
    exists (root, dirs, files). split; [exact Hd|].
    cbn [fst snd]. apply in_flat_map. now exists f.
Qed.

(** Every collected record is the record of a readable, eligible file that
    the walk has met. *)
Lemma collected_scan (w : world) (root_dir : string) (lint : gmap string nat)
    (m : FileMetrics) :
  In m (collected (scan w root_dir lint)) <->
  exists root dirs files name content rel,
    In (root, dirs, files) (walked w root_dir)
    /\ In (name, Content content) files
    /\ should_analyze_file (PosixPath.join root name) = true
    /\ PosixPath.relpath (cwd w) (PosixPath.join root name) root_dir = Some rel
    /\ m = metrics_of lint root name content rel.
Proof.
  rewrite in_collected, in_scan. split.
  - intros (root & dirs & files & [name r] & Hd & Hf & Hev).
    apply visit_collected in Hev as (content & rel & Hc & Hs & Hr & ->).
    cbn [fst snd] in *. subst r. now exists root, dirs, files, name, content, rel.
  - intros (root & dirs & files & name & content & rel & Hd & Hf & Hs & Hr & ->).
    exists root, dirs, files, (name, Content content). split; [exact Hd|].
    split; [exact Hf|]. apply visit_collected. now exists content, rel.
Qed.

Lemma main_usage (w : world) (argv : list string) :
  List.length argv <> 2 ->
  main w argv = {| stdout := [usage]; stderr := []; ending := Exit 1 |}.
Proof.
  intros H. unfold main. destruct (Nat.eqb_spec (List.length argv) 2); [contradiction|].
  reflexivity.
Qed.

Lemma main_scans (w : world) (prog root_dir : string) (lint : gmap string nat) :
  load_lint_report w root_dir = Ok lint ->
  main w [prog; root_dir]
  = {| stdout := generate_report (collected (scan w root_dir lint));
       stderr := diagnostics (scan w root_dir lint);
       ending := Exit 0 |}.
Proof.
  intros H. unfold main, analyze_swift_files. cbn [List.length Nat.eqb negb nth].
  now rewrite H.
Qed.

Lemma main_no_usage (w : world) (argv : list string) :
  List.length argv = 2 -> stdout (main w argv) <> [usage].
Proof.
  intros H. unfold main. rewrite H. cbn [Nat.eqb negb].
  destruct (analyze_swift_files w (nth 1 argv "")) as [errs [metrics|e]];
    cbn [stdout]; [|discriminate].
  rewrite generate_report_sections. cbv zeta. cbn [app]. discriminate.
Qed.

Lemma scan_not_directory (w : world) (root_dir : string) (lint : gmap string nat) :
  is_directory w root_dir = false -> scan w root_dir lint = [].
Proof.
  unfold is_directory, scan, walked.
  destruct (fs w root_dir) as [[r|es]|]; [reflexivity | discriminate | reflexivity].
Qed.

(** ** Trees *)

Lemma node_induction (P : node -> Prop) :
  (forall r, P (File r)) ->
  (forall es, Forall (fun e : string * node => P e.2) es -> P (Dir es)) ->
  forall n, P n.
Proof.
  intros Hfile Hdir. fix IH 1. intros [r|es]; [apply Hfile|].
  apply Hdir. induction es as [|[name sub] es IHes]; constructor.
  - apply IH.
  - exact IHes.
Qed.

Lemma walk_Dir (top : string) (es : list (string * node)) :
  walk top (Dir es)
  = (top, dirnames es, filenames es)
    :: flat_map (fun e => walk (PosixPath.join top e.1) e.2) es.
Proof.
  cbn [walk]. f_equal.
  induction es as [|[name sub] es IH]; [reflexivity|].
  cbn [flat_map fst snd]. now rewrite IH.
Qed.

Lemma drop_unreadable_Dir (es : list (string * node)) :
  drop_unreadable (Dir es) = Dir (flat_map kept es).
Proof.
  cbn [drop_unreadable]. f_equal.
  induction es as [|[name sub] es IH]; [reflexivity|].
  cbn [flat_map]. unfold kept at 1. cbn [fst snd].
  destruct sub as [[c|e]|es']; cbn [app]; now rewrite IH.
Qed.

Lemma wf_node_Dir (es : list (string * node)) :
  wf_node (Dir es) = forallb (fun e => valid_name e.1 && wf_node e.2) es.
Proof.
  cbn [wf_node]. induction es as [|[name sub] es IH]; [reflexivity|].
  cbn [forallb fst snd]. now rewrite IH.
Qed.

Lemma collected_app (e1 e2 : list event) :
  collected (e1 ++ e2) = (collected e1 ++ collected e2)%list.
Proof. unfold collected. apply flat_map_app. Qed.

Lemma events_app (w : world) (root_dir : string) (lint : gmap string nat)
    (d1 d2 : list (string * list string * list (string * read_result))) :
  events w root_dir lint (d1 ++ d2)
  = (events w root_dir lint d1 ++ events w root_dir lint d2)%list.
Proof. unfold events. apply flat_map_app. Qed.

Lemma events_cons (w : world) (root_dir : string) (lint : gmap string nat)
    (root : string) (dirs : list string) (files : list (string * read_result))
    (ds : list (string * list string * list (string * read_result))) :
  events w root_dir lint ((root, dirs, files) :: ds)
  = (flat_map (visit w root_dir lint root) files ++ events w root_dir lint ds)%list.
Proof. reflexivity. Qed.

Lemma collected_files_kept (w : world) (root_dir : string) (lint : gmap string nat)
    (root : string) (es : list (string * node)) :
  collected (flat_map (visit w root_dir lint root) (filenames es))
  = collected (flat_map (visit (without_unreadable w) root_dir lint root)
                 (filenames (flat_map kept es))).
Proof.
  induction es as [|[name sub] es IH]; [reflexivity|].
  unfold filenames in *. cbn [flat_map fst snd]. unfold kept at 1. cbn [fst snd].
  destruct sub as [[c|e]|es']; cbn [app flat_map fst snd drop_unreadable].
  - rewrite !collected_app, IH. reflexivity.
  - rewrite collected_app, IH.
    replace (collected (visit w root_dir lint root (name, ReadError e))) with (@nil FileMetrics);
      [reflexivity|].
    unfold visit. cbn [fst snd].
    destruct (should_analyze_file (PosixPath.join root name)); reflexivity.
  - exact IH.
Qed.

Lemma collected_walk_kept (w : world) (root_dir : string) (lint : gmap string nat)
    (n : node) :
  forall top,
    collected (events w root_dir lint (walk top n))
    = collected (events (without_unreadable w) root_dir lint
                   (walk top (drop_unreadable n))).
Proof.
  induction n as [r|es IH] using node_induction; intros top; [reflexivity|].
  rewrite drop_unreadable_Dir, !walk_Dir, !events_cons.
  rewrite !collected_app, collected_files_kept. f_equal.
  clear -IH. induction IH as [|[name sub] es Hsub _ IHes]; [reflexivity|].
  cbn [flat_map]. rewrite !events_app, !collected_app, IHes.
  unfold kept at 2. cbn [fst snd] in *.
  destruct sub as [[c|e]|es']; cbn [app flat_map fst snd].
  - reflexivity.
  - reflexivity.
  - rewrite events_app, collected_app, (Hsub (PosixPath.join top name)).
    reflexivity.
Qed.

Lemma collected_scan_kept (w : world) (root_dir : string) (lint : gmap string nat) :
  collected (scan w root_dir lint)
  = collected (scan (without_unreadable w) root_dir lint).
Proof.
  unfold scan, walked. cbn [without_unreadable fs].
  destruct (fs w root_dir) as [n|]; [|reflexivity].
  apply (collected_walk_kept w root_dir lint n root_dir).
Qed.

(** No line of the report has the form of a diagnostic. *)
Lemma report_has_no_error_line (metrics : list FileMetrics) (l : line) :
  In l (generate_report metrics) -> ~ is_error_line l.
Proof.
  intros Hin (file_path & e & ->). rewrite generate_report_sections in Hin.
  cbv zeta in Hin. repeat rewrite in_app_iff in Hin.
  repeat rewrite in_flat_map in Hin. unfold summary in Hin. cbn [In] in Hin.
  repeat match goal with
  | H : _ \/ _ |- _ => destruct H as [H|H]
  | H : exists _, _ |- _ => destruct H as [? [_ H]]
  | H : False |- _ => contradiction
  | H : _ = _ |- _ => discriminate H
  | H : In _ (listing _) |- _ => unfold listing in H; cbn [In] in H
  | H : In _ (recommend ?m) |- _ =>
      unfold recommend, split_line, types_line, functions_line, lint_line_out,
        simplify_lines in H;
      destruct (needs_attention m), (300 <? line_count m)%nat,
        (3 <? type_count m)%nat, (10 <? function_count m)%nat,
        (0 <? lint_issues m)%nat, (10 <? complexity_score m)%float;
      cbn [In app] in H
  end.
Qed.

Lemma in_diagnostics (w : world) (root_dir : string) (lint : gmap string nat)
    (l : line) :
  In l (diagnostics (scan w root_dir lint)) -> is_error_line l.
Proof.
  unfold diagnostics. rewrite in_flat_map. intros [[m|msg] [Hev H]]; cbn [In] in H;
    [contradiction|]. destruct H as [->|[]].
  apply in_scan in Hev as (root & dirs & files & [name r] & _ & _ & Hev).
  unfold visit, is_error_line in *. cbn [fst snd] in Hev.
  destruct (should_analyze_file (PosixPath.join root name)); cbn [negb] in Hev;
    [|contradiction].
  destruct r as [content|e];
    [destruct (PosixPath.relpath (cwd w) (PosixPath.join root name) root_dir)|];
    cbn [In] in Hev; destruct Hev as [Hev|[]]; try discriminate;
    injection Hev as <-; eauto.
Qed.

(** ** Facts about paths *)

Lemma endswith_app (p s : string) :
  PyStr.endswith p s = true <-> exists a, s = a ++ p.
Proof.
  induction s as [|c s IH]; cbn [PyStr.endswith]; rewrite orb_true_iff, String.eqb_eq.
  - split.
    + intros [<-|?]; [now exists ""|discriminate].
    + intros [[|? a] H]; [left; exact H | discriminate].
  - rewrite IH. split.
    + intros [<-|[a ->]]; [now exists ""|]. now exists (String c a).
    + intros [[|c' a] H]; [left; exact H|].
      right. cbn in H. injection H as -> ->. now exists a.
Qed.

Lemma endswith_app_r (p a s : string) :
  PyStr.endswith p s = true -> PyStr.endswith p (a ++ s) = true.
Proof.
  rewrite !endswith_app. intros [b ->]. exists (a ++ b). now rewrite append_assoc.
Qed.

Lemma endswith_contains (p s : string) :
  PyStr.endswith p s = true -> PyStr.contains p s = true.
Proof.
  rewrite endswith_app, contains_app. intros [a ->]. exists a, "".
  now rewrite append_nil_r.
Qed.

Lemma contains_app_l (p a b : string) :
  PyStr.contains p a = true -> PyStr.contains p (a ++ b) = true.
Proof.
  rewrite !contains_app. intros (x & y & ->). exists x, (y ++ b).
  now rewrite !append_assoc.
Qed.

Lemma contains_app_r (p a b : string) :
  PyStr.contains p b = true -> PyStr.contains p (a ++ b) = true.
Proof.
  rewrite !contains_app. intros (x & y & ->). exists (a ++ x), y.
  now rewrite !append_assoc.
Qed.

(** A suffix without separator of [x/name] is a suffix of [name]. *)
Lemma endswith_after_sep (p x name : string) :
  PyStr.contains "/" p = false ->
  PyStr.endswith p (x ++ "/" ++ name) = true -> PyStr.endswith p name = true.
Proof.
  intros Hp. induction x as [|b x IH]; cbn [String.append PyStr.endswith];
    rewrite orb_true_iff, String.eqb_eq.
  - intros [<-|H]; [|exact H]. discriminate Hp.
  - intros [<-|H]; [|now apply IH].
    exfalso.
    pose proof (contains_app_r "/" (String b x) ("/" ++ name) eq_refl) as H.
    cbn [String.append] in H. congruence.
Qed.

(** What a valid name gives. *)
Lemma valid_name_spec (name : string) :
  valid_name name = true <->
  name <> "" /\ name <> "." /\ name <> ".." /\ PyStr.contains "/" name = false.
Proof.
  unfold valid_name. rewrite !andb_true_iff, !negb_true_iff, !String.eqb_neq.
  tauto.
Qed.

Lemma no_sep_startswith (s t : string) :
  s <> "" -> PyStr.contains "/" s = false -> PyStr.startswith "/" (s ++ t) = false.
Proof.
  destruct s as [|a s]; [congruence|]. intros _ H.
  cbn [PyStr.contains PyStr.startswith String.append] in *.
  destruct ("/" =? a)%char; [discriminate | reflexivity].
Qed.

Lemma no_sep_endswith (x s : string) :
  s <> "" -> PyStr.contains "/" s = false -> PyStr.endswith "/" (x ++ s) = false.
Proof.
  intros Hne Hs. destruct (PyStr.endswith "/" (x ++ s)) eqn:H; [|reflexivity].
  exfalso. induction x as [|b x IH].
  - apply endswith_contains in H. cbn in H. congruence.
  - apply IH. cbn [String.append PyStr.endswith] in H.
    apply orb_true_iff in H as [H|H]; [|exact H].
    apply String.eqb_eq in H. injection H as _ H.
    destruct x; [|discriminate]. cbn in H. congruence.
Qed.

Lemma app_not_nil_r (a b : string) : b <> "" -> a ++ b <> "".
Proof. destruct a; cbn; [auto | discriminate]. Qed.

Lemma app_eqb_nil_r (a b : string) : b <> "" -> (a ++ b =? "") = false.
Proof. intros H. now apply String.eqb_neq, app_not_nil_r. Qed.

Lemma join_relative (a b : string) :
  PyStr.startswith "/" b = false -> PosixPath.join a b = a ++ join_sep a ++ b.
Proof.
  unfold PosixPath.join, join_sep. intros ->.
  destruct ((a =? "") || PyStr.endswith "/" a); reflexivity.
Qed.

Lemma endswith_sep_app (a b : string) :
  b <> "" -> PyStr.endswith "/" (a ++ b) = PyStr.endswith "/" b.
Proof.
  intros Hb. induction a as [|x a IH]; [reflexivity|].
  cbn [String.append PyStr.endswith]. rewrite IH.
  replace (String x (a ++ b) =? "/") with false; [reflexivity|].
  symmetry. apply String.eqb_neq. intros H. injection H as _ H.
  now apply (app_not_nil_r a b).
Qed.

Lemma join_sep_app (a b : string) :
  b <> "" -> join_sep (a ++ b) = join_sep b.
Proof.
  intros Hb. unfold join_sep. rewrite (endswith_sep_app a b Hb).
  rewrite (app_eqb_nil_r a b Hb). now apply String.eqb_neq in Hb as ->.
Qed.

Lemma join_sep_idem (a : string) : join_sep (a ++ join_sep a) = "".
Proof.
  unfold join_sep at 2. destruct (String.eqb_spec a "") as [->|Ha]; [reflexivity|].
  cbn [orb]. destruct (PyStr.endswith "/" a) eqn:He.
  - rewrite append_nil_r. unfold join_sep. now rewrite He, orb_true_r.
  - unfold join_sep. rewrite (endswith_sep_app a "/") by discriminate.
    now rewrite orb_true_r.
Qed.

Lemma startswith_sep_app (a b : string) :
  a <> "" -> PyStr.startswith "/" (a ++ b) = PyStr.startswith "/" a.
Proof. destruct a as [|x a]; [congruence | reflexivity]. Qed.

Lemma join_assoc (a b c : string) :
  PyStr.startswith "/" b = false -> PyStr.startswith "/" c = false ->
  PosixPath.join a (PosixPath.join b c) = PosixPath.join (PosixPath.join a b) c.
Proof.
  intros Hb Hc.
  assert (Hbc : PyStr.startswith "/" (PosixPath.join b c) = false).
  { rewrite (join_relative b c Hc). destruct b as [|x b]; [exact Hc | exact Hb]. }
  rewrite (join_relative a _ Hbc), (join_relative b c Hc), (join_relative a b Hb),
    (join_relative _ c Hc).
  rewrite !append_assoc. do 3 f_equal.
  destruct (String.eqb_spec b "") as [->|Hne].
  - rewrite append_nil_r, join_sep_idem. reflexivity.
  - rewrite <- append_assoc. rewrite (join_sep_app _ b Hne). reflexivity.
Qed.

Lemma pyjoin_cons (c : string) (cs : list string) :
  PyStr.join "/" (c :: cs) = c ++ tail_str cs.
Proof.
  revert c. induction cs as [|d cs IH]; intros c.
  - cbn. now rewrite append_nil_r.
  - change (PyStr.join "/" (c :: d :: cs)) with (c ++ "/" ++ PyStr.join "/" (d :: cs)).
    rewrite IH. reflexivity.
Qed.

Lemma fold_join_valid (cs : list string) :
  forall x, x <> "" -> PyStr.endswith "/" x = false ->
    Forall (fun c => valid_name c = true) cs ->
    fold_left PosixPath.join cs x = x ++ tail_str cs.
Proof.
  induction cs as [|c cs IH]; intros x Hx He Hcs.
  - cbn. now rewrite append_nil_r.
  - inversion Hcs as [|? ? Hc Hcs']; subst.
    apply valid_name_spec in Hc as (Hc1 & _ & _ & Hc2).
    cbn [fold_left tail_str fold_right]. fold (tail_str cs).
    rewrite (join_relative x c) by (rewrite <- (append_nil_r c); now apply no_sep_startswith).
    assert (Hsep : join_sep x = "/").
    { unfold join_sep. rewrite He. now apply String.eqb_neq in Hx as ->. }
    rewrite Hsep, IH; trivial.
    + now rewrite !append_assoc.
    + apply app_not_nil_r, app_not_nil_r, Hc1.
    + rewrite <- append_assoc. now apply no_sep_endswith.
Qed.

Lemma join_all_valid (top c : string) (cs : list string) :
  Forall (fun c => valid_name c = true) (c :: cs) ->
  PosixPath.join_all top (c :: cs) = PosixPath.join top (PyStr.join "/" (c :: cs))
  /\ PosixPath.join_all c cs = PyStr.join "/" (c :: cs)
  /\ PyStr.startswith "/" (PyStr.join "/" (c :: cs)) = false
  /\ PyStr.join "/" (c :: cs) <> "".
Proof.
  intros H. inversion H as [|? ? Hc Hcs]; subst.
  apply valid_name_spec in Hc as (Hc1 & _ & _ & Hc2).
  assert (Hrel : forall t, PyStr.startswith "/" (c ++ t) = false)
    by (intros t; now apply no_sep_startswith).
  rewrite pyjoin_cons. unfold PosixPath.join_all. cbn [fold_left].
  split; [|split; [|split]].
  - rewrite (join_relative top (c ++ tail_str cs)) by apply Hrel.
    rewrite (join_relative top c) by (rewrite <- (append_nil_r c); apply Hrel).
    rewrite fold_join_valid; trivial.
    + now rewrite !append_assoc.
    + apply app_not_nil_r, app_not_nil_r, Hc1.
    + rewrite <- append_assoc. now apply no_sep_endswith.
  - apply fold_join_valid; trivial.
    exact (no_sep_endswith "" c Hc1 Hc2).
  - apply Hrel.
  - destruct c; [congruence | discriminate].
Qed.

Lemma split_app_sep (sep : ascii) (a b : string) :
  PyStr.split sep (a ++ String sep b) = (PyStr.split sep a ++ PyStr.split sep b)%list.
Proof.
  induction a as [|x a IH]; cbn [String.append PyStr.split].
  - now rewrite Ascii.eqb_refl.
  - destruct (x =? sep)%char; [now rewrite IH|].
    rewrite IH. pose proof (split_not_nil sep a) as Hnil.
    destruct (PyStr.split sep a); [congruence | reflexivity].
Qed.

Lemma split_no_sep (sep : ascii) (s : string) :
  PyStr.contains (String sep "") s = false -> PyStr.split sep s = [s].
Proof.
  induction s as [|x s IH]; [reflexivity|].
  cbn [PyStr.contains PyStr.startswith PyStr.split].
  rewrite Ascii.eqb_sym. destruct (x =? sep)%char; [discriminate|].
  cbn [andb orb]. intros H. now rewrite (IH H).
Qed.

Lemma split_parts_no_sep (sep : ascii) (s : string) :
  Forall (fun c => PyStr.contains (String sep "") c = false) (PyStr.split sep s).
Proof.
  induction s as [|x s IH]; cbn [PyStr.split]; [now repeat constructor|].
  destruct (Ascii.eqb_spec x sep) as [->|Hne]; [now constructor|].
  destruct (PyStr.split sep s) as [|hd tl]; [repeat constructor|].
  - cbn. apply Ascii.eqb_neq in Hne. now rewrite Ascii.eqb_sym, Hne.
  - inversion IH; subst. constructor; [|assumption].
    cbn [PyStr.contains PyStr.startswith]. apply Ascii.eqb_neq in Hne.
    now rewrite Ascii.eqb_sym, Hne.
Qed.

Lemma split_pyjoin (c : string) (cs : list string) :
  Forall (fun c => PyStr.contains "/" c = false) (c :: cs) ->
  PyStr.split "/" (PyStr.join "/" (c :: cs)) = c :: cs.
Proof.
  revert c. induction cs as [|d cs IH]; intros c H; inversion H; subst.
  - now apply split_no_sep.
  - change (PyStr.join "/" (c :: d :: cs)) with (c ++ String "/" (PyStr.join "/" (d :: cs))).
    rewrite split_app_sep, IH by assumption. now rewrite split_no_sep.
Qed.

(** [normpath] pushes valid names. *)
Lemma norm_step_valid (rooted : bool) (cs : list string) :
  forall stack,
    Forall (fun c => valid_name c = true) cs ->
    fold_left (PosixPath.norm_step rooted) cs stack = (rev cs ++ stack)%list.
Proof.
  induction cs as [|c cs IH]; intros stack H; [reflexivity|].
  inversion H as [|? ? Hc Hcs]; subst. cbn [fold_left rev].
  rewrite IH by assumption. rewrite <- app_assoc. cbn [app]. f_equal.
  apply valid_name_spec in Hc as (H1 & H2 & H3 & _).
  unfold PosixPath.norm_step.
  apply String.eqb_neq in H1 as ->. apply String.eqb_neq in H2 as ->.
  apply String.eqb_neq in H3 as ->. reflexivity.
Qed.

Lemma norm_step_empty (rooted : bool) (stack : list string) :
  PosixPath.norm_step rooted stack "" = stack.
Proof. reflexivity. Qed.

Lemma norm_step_plain (rooted : bool) (cs : list string) :
  forall stack,
    Forall (fun c => PyStr.contains "/" c = false) cs ->
    Forall plain stack ->
    Forall plain (fold_left (PosixPath.norm_step rooted) cs stack).
Proof.
  induction cs as [|c cs IH]; intros stack Hcs Hst; [exact Hst|].
  inversion Hcs; subst. cbn [fold_left]. apply IH; [assumption|].
  unfold PosixPath.norm_step.
  destruct (String.eqb_spec c "") as [->|Hne]; [exact Hst|]. cbn [orb].
  destruct (c =? "."); [exact Hst|].
  match goal with |- Forall _ (if ?b then _ else _) => destruct b end.
  - constructor; [now split | exact Hst].
  - destruct stack; [exact Hst | now inversion Hst].
Qed.

Lemma filter_plain (l : list string) :
  Forall plain l -> List.filter (fun x => negb (x =? "")) l = l.
Proof.
  induction 1 as [|x l [Hx _] _ IH]; [reflexivity|].
  cbn [List.filter]. apply String.eqb_neq in Hx as ->. cbn [negb]. now rewrite IH.
Qed.

Lemma nonempty_parts_pyjoin (l : list string) :
  Forall plain l -> PosixPath.nonempty_parts (PyStr.join "/" l) = l.
Proof.
  intros H. unfold PosixPath.nonempty_parts. destruct l as [|c cs]; [reflexivity|].
  rewrite split_pyjoin by (eapply List.Forall_impl; [|exact H]; now intros ? []).
  now apply filter_plain.
Qed.

Lemma nonempty_parts_sep (s : string) :
  PosixPath.nonempty_parts (String "/" s) = PosixPath.nonempty_parts s.
Proof. reflexivity. Qed.

Lemma initial_slashes_absolute (p : string) :
  PyStr.startswith "/" p = true ->
  PosixPath.initial_slashes p = 1 \/ PosixPath.initial_slashes p = 2.
Proof.
  unfold PosixPath.initial_slashes. intros ->.
  destruct (PyStr.startswith "//" p && negb (PyStr.startswith "///" p)); auto.
Qed.

Lemma norm_comps_absolute (p : string) :
  PyStr.startswith "/" p = true ->
  PosixPath.norm_comps p
  = rev (fold_left (PosixPath.norm_step true) (PyStr.split "/" p) []).
Proof.
  intros H. unfold PosixPath.norm_comps.
  destruct (initial_slashes_absolute p H) as [-> | ->]; reflexivity.
Qed.

Lemma norm_comps_plain (p : string) : Forall plain (PosixPath.norm_comps p).
Proof.
  unfold PosixPath.norm_comps. apply List.Forall_rev, norm_step_plain; [|constructor].
  apply split_parts_no_sep.
Qed.

(** The components of an absolute path after [normpath]. *)
Lemma nonempty_parts_normpath (p : string) :
  PyStr.startswith "/" p = true ->
  PosixPath.nonempty_parts (PosixPath.normpath p) = PosixPath.norm_comps p.
Proof.
  intros H. unfold PosixPath.normpath.
  destruct p as [|x p]; [discriminate|]. cbn [String.eqb].
  destruct (initial_slashes_absolute _ H) as [-> | ->];
    cbn [repeat String.concat String.append];
    rewrite ?nonempty_parts_sep; apply nonempty_parts_pyjoin, norm_comps_plain.
Qed.

Lemma common_prefix_len_app (l m : list string) :
  PosixPath.common_prefix_len l (l ++ m) = List.length l.
Proof.
  induction l as [|x l IH]; cbn [PosixPath.common_prefix_len app List.length].
  - now destruct m.
  - now rewrite String.eqb_refl, IH.
Qed.

Lemma anchored_absolute (cwd p : string) :
  PyStr.startswith "/" cwd = true -> PyStr.startswith "/" (anchored cwd p) = true.
Proof.
  intros Hc. unfold anchored. destruct (PyStr.startswith "/" p) eqn:Hp; [exact Hp|].
  rewrite (join_relative cwd p Hp). rewrite startswith_sep_app; [exact Hc|].
  destruct cwd; [discriminate | congruence].
Qed.

Lemma anchored_join (cwd top s : string) :
  PyStr.startswith "/" cwd = true -> PyStr.startswith "/" s = false ->
  anchored cwd (PosixPath.join top s) = PosixPath.join (anchored cwd top) s.
Proof.
  intros Hc Hs. unfold anchored. rewrite (join_relative top s Hs).
  destruct (PyStr.startswith "/" top) eqn:Ht.
  - rewrite startswith_sep_app, Ht; [|destruct top; [discriminate | congruence]].
    now rewrite (join_relative top s Hs).
  - assert (Hrel : PyStr.startswith "/" (top ++ join_sep top ++ s) = false).
    { destruct top as [|x top]; [exact Hs | exact Ht]. }
    rewrite Hrel, <- (join_relative top s Hs). now apply join_assoc.
Qed.

Lemma norm_comps_join (a : string) (c : string) (cs : list string) :
  PyStr.startswith "/" a = true ->
  Forall (fun c => valid_name c = true) (c :: cs) ->
  PosixPath.norm_comps (PosixPath.join a (PyStr.join "/" (c :: cs)))
  = (PosixPath.norm_comps a ++ c :: cs)%list.
Proof.
  intros Ha Hv.
  destruct (join_all_valid "" c cs Hv) as (_ & _ & Hrel & _).
  assert (Hne : a <> "") by (destruct a; [discriminate | congruence]).
  assert (Hsplit : PyStr.split "/" (PyStr.join "/" (c :: cs)) = c :: cs).
  { apply split_pyjoin. eapply List.Forall_impl; [|exact Hv].
    intros x Hx. now apply valid_name_spec in Hx. }
  rewrite (join_relative a _ Hrel).
  rewrite (norm_comps_absolute a Ha).
  rewrite norm_comps_absolute by (rewrite startswith_sep_app; assumption).
  unfold join_sep. apply String.eqb_neq in Hne as ->. cbn [orb].
  destruct (PyStr.endswith "/" a) eqn:He.
  - apply endswith_app in He as [a' ->]. rewrite append_assoc. cbn [String.append].
    rewrite !split_app_sep, Hsplit. cbn [PyStr.split].
    rewrite !fold_left_app.
    rewrite (norm_step_valid true (c :: cs)) by assumption.
    change (fold_left (PosixPath.norm_step true) [""] ?x)
      with (PosixPath.norm_step true x "").
    rewrite norm_step_empty.
    now rewrite rev_app_distr, rev_involutive.
  - cbn [String.append]. rewrite split_app_sep, Hsplit, fold_left_app.
    rewrite norm_step_valid by assumption.
    now rewrite rev_app_distr, rev_involutive.
Qed.

(** The path of a file below [top], relative to [top], is the chain of names
    that leads to it. *)
Lemma relpath_below (cwd top : string) (c : string) (cs : list string) :
  PyStr.startswith "/" cwd = true ->
  Forall (fun c => valid_name c = true) (c :: cs) ->
  PosixPath.relpath cwd (PosixPath.join_all top (c :: cs)) top
  = Some (PyStr.join "/" (c :: cs)).
Proof.
  intros Hc Hv.
  destruct (join_all_valid top c cs Hv) as (Hp & Hj & Hrel & Hne).
  rewrite Hp. unfold PosixPath.relpath.
  assert (Hp' : PosixPath.join top (PyStr.join "/" (c :: cs)) <> "").
  { rewrite (join_relative _ _ Hrel). now apply app_not_nil_r, app_not_nil_r. }
  apply String.eqb_neq in Hp' as ->.
  unfold PosixPath.abspath. fold (anchored cwd top).
  fold (anchored cwd (PosixPath.join top (PyStr.join "/" (c :: cs)))).
  rewrite (anchored_join _ _ _ Hc Hrel).
  pose proof (anchored_absolute cwd top Hc) as Habs.
  rewrite !nonempty_parts_normpath;
    [| rewrite (join_relative _ _ Hrel), startswith_sep_app; [exact Habs|];
       destruct (anchored cwd top); [discriminate | congruence]
     | exact Habs].
  rewrite (norm_comps_join _ c cs Habs Hv), common_prefix_len_app.
  rewrite Nat.sub_diag, skipn_app, skipn_all, Nat.sub_diag. cbn [repeat skipn app].
  now rewrite Hj.
Qed.

(** ** Where a walk goes *)

Lemma filenames_valid (es : list (string * node)) :
  forallb (fun e => valid_name e.1 && wf_node e.2) es = true ->
  Forall (fun f : string * read_result => valid_name f.1 = true) (filenames es).
Proof.
  induction es as [|[name sub] es IH]; [constructor|].
  cbn [forallb fst snd]. rewrite !andb_true_iff. intros [[Hn _] Hes].
  unfold filenames. cbn [flat_map fst snd].
  destruct sub; cbn [app]; [constructor; [exact Hn|] |]; now apply IH.
Qed.

(** In a well-formed tree every directory of the walk is reached from the
    top by a chain of valid names, and every file name is valid. *)
Lemma walk_roots (n : node) :
  forall top root dirs files,
    wf_node n = true ->
    In (root, dirs, files) (walk top n) ->
    exists comps,
      Forall (fun c => valid_name c = true) comps
      /\ root = fold_left PosixPath.join comps top
      /\ Forall (fun f : string * read_result => valid_name f.1 = true) files.
Proof.
  induction n as [r|es IH] using node_induction; intros top root dirs files Hwf Hin;
    [contradiction|].
  rewrite wf_node_Dir in Hwf. rewrite walk_Dir in Hin. destruct Hin as [Hin|Hin].
  - injection Hin as <- <- <-. exists []. repeat split; [constructor|].
    now apply filenames_valid.
  - apply in_flat_map in Hin as [[name sub] [He Hin]]. cbn [fst snd] in Hin.
    rewrite forallb_forall in Hwf. specialize (Hwf _ He). cbn [fst snd] in Hwf.
    apply andb_true_iff in Hwf as [Hname Hsub].
    rewrite List.Forall_forall in IH. specialize (IH _ He). cbn [snd] in IH.
    destruct (IH _ _ _ _ Hsub Hin) as (comps & Hc & -> & Hf).
    exists (name :: comps). repeat split; [now constructor | exact Hf].
Qed.

Lemma should_analyze_file_spec (file_path : string) :
  should_analyze_file file_path = true <->
  (forall part, In part (PyStr.split "/" file_path) -> part ∉ excluded_dirs)
  /\ PyStr.endswith ".swift" file_path = true.
Proof.
  unfold should_analyze_file.
  destruct (existsb _ (PyStr.split "/" file_path)) eqn:Hex.
  - split; [discriminate|]. intros [H _]. exfalso.
    apply existsb_exists in Hex as [part [Hin Hp]].
    apply bool_decide_eq_true in Hp. exact (H part Hin Hp).
  - split; [intros He | now intros [_ He]]. split; [|exact He].
    intros part Hin Hp.
    assert (Ht : existsb (fun part => bool_decide (part ∈ excluded_dirs))
                   (PyStr.split "/" file_path) = true).
    { apply existsb_exists. exists part. split; [exact Hin|].
      now apply bool_decide_eq_true. }
    congruence.
Qed.

Lemma pyjoin_snoc (comps : list string) (name : string) :
  exists x, PyStr.join "/" (comps ++ [name]) = x ++ name.
Proof.
  induction comps as [|c comps [x IH]]; [now exists ""|].
  destruct comps as [|d comps].
  - exists (c ++ "/"). cbn. now rewrite append_assoc.
  - exists (c ++ "/" ++ x).
    change (PyStr.join "/" ((c :: d :: comps) ++ [name]))
      with (c ++ "/" ++ PyStr.join "/" ((d :: comps) ++ [name])).
    rewrite IH. now rewrite !append_assoc.
Qed.

Lemma endswith_join_name (p root name : string) :
  PyStr.contains "/" p = false -> valid_name name = true ->
  PyStr.endswith p (PosixPath.join root name) = true -> PyStr.endswith p name = true.
Proof.
  intros Hp Hn. apply valid_name_spec in Hn as (Hn1 & _ & _ & Hn2).
  rewrite (join_relative root name)
    by (rewrite <- (append_nil_r name); now apply no_sep_startswith).
  unfold join_sep. destruct (String.eqb_spec root "") as [->|Hr]; [trivial|].
  cbn [orb]. destruct (PyStr.endswith "/" root) eqn:He.
  - apply endswith_app in He as [r' ->]. rewrite append_assoc. cbn [String.append].
    apply (endswith_after_sep p r' name Hp).
  - apply (endswith_after_sep p root name Hp).
Qed.

Lemma split_join_incl (a s part : string) :
  PyStr.startswith "/" s = false ->
  In part (PyStr.split "/" s) -> In part (PyStr.split "/" (PosixPath.join a s)).
Proof.
  intros Hs Hin. rewrite (join_relative a s Hs). unfold join_sep.
  destruct (String.eqb_spec a "") as [->|Ha]; [exact Hin|]. cbn [orb].
  destruct (PyStr.endswith "/" a) eqn:He.
  - apply endswith_app in He as [a' ->]. rewrite append_assoc. cbn [String.append].
    rewrite split_app_sep. apply in_or_app. now right.
  - cbn [String.append]. rewrite split_app_sep. apply in_or_app. now right.
Qed.

(** In a well-formed world the stored path of a record is the chain of names
    from the scan root to the file, and the file's traversal path is the
    scan-root argument joined with it. *)
Lemma collected_paths (w : world) (root_dir : string) (lint : gmap string nat)
    (m : FileMetrics) :
  wf_world w root_dir ->
  In m (collected (scan w root_dir lint)) ->
  exists comps name content,
    Forall (fun c => valid_name c = true) (comps ++ [name])
    /\ path m = PyStr.join "/" (comps ++ [name])
    /\ PosixPath.join (fold_left PosixPath.join comps root_dir) name
       = PosixPath.join root_dir (path m)
    /\ should_analyze_file (PosixPath.join root_dir (path m)) = true
    /\ PyStr.endswith ".swift" name = true
    /\ m = metrics_of lint (fold_left PosixPath.join comps root_dir) name content
             (path m).
Proof.
  intros [Hcwd Hwf] Hin.
  apply collected_scan in Hin
    as (root & dirs & files & name & content & rel & Hd & Hf & Hs & Hr & ->).
  unfold walked in Hd. destruct (fs w root_dir) as [n|] eqn:Hn; [|contradiction].
  destruct (walk_roots n _ _ _ _ (Hwf n eq_refl) Hd) as (comps & Hc & -> & Hfiles).
  rewrite List.Forall_forall in Hfiles. specialize (Hfiles _ Hf). cbn [fst] in Hfiles.
  assert (Hv : Forall (fun c => valid_name c = true) (comps ++ [name])).
  { apply List.Forall_app. split; [exact Hc | now constructor]. }
  assert (Hjoin : PosixPath.join (fold_left PosixPath.join comps root_dir) name
                  = PosixPath.join_all root_dir (comps ++ [name])).
  { unfold PosixPath.join_all. now rewrite fold_left_app. }
  assert (Hends : PyStr.endswith ".swift" name = true).
  { apply should_analyze_file_spec in Hs as [_ Hs].
    exact (endswith_join_name ".swift" _ name eq_refl Hfiles Hs). }
  destruct (comps ++ [name])%list as [|c cs] eqn:Hcs; [now destruct comps|].
  rewrite Hjoin, (relpath_below _ _ c cs Hcwd Hv) in Hr. injection Hr as <-.
  exists comps, name, content. cbn [path metrics_of]. rewrite Hcs.
  destruct (join_all_valid root_dir c cs Hv) as (Hp & _).
  rewrite Hjoin, Hp in *. repeat split; trivial.
Qed.

Lemma length_append (a b : string) :
  String.length (a ++ b) = String.length a + String.length b.
Proof. induction a as [|x a IH]; cbn; [reflexivity | now rewrite IH]. Qed.

Lemma join_longer (a s : string) :
  a <> "" -> PyStr.startswith "/" s = false -> PosixPath.join a s <> s.
Proof.
  intros Ha Hs H. rewrite (join_relative a s Hs) in H.
  apply (f_equal String.length) in H. rewrite !length_append in H.
  destruct a; [congruence|]. cbn in H. lia.
Qed.

Lemma join_startswith (a s : string) :
  PyStr.startswith "/" s = false -> PyStr.startswith a (PosixPath.join a s) = true.
Proof.
  intros Hs. rewrite (join_relative a s Hs). apply startswith_app. eauto.
Qed.

Lemma nested_same_name_wf : wf_world nested_same_name "proj".
Proof.
  split; [reflexivity|]. intros n H. injection H as <-. reflexivity.
Qed.

(** The sort key of every collected record is a number. *)
Lemma collected_keys_are_numbers (w : world) (root_dir : string)
    (lint : gmap string nat) :
  Forall (fun m => is_nan (sort_key m) = false) (collected (scan w root_dir lint)).
Proof.
  apply List.Forall_forall. intros m Hin.
  apply collected_scan in Hin
    as (root & dirs & files & name & content & rel & _ & _ & _ & _ & ->).
  apply sort_key_not_nan. cbn [complexity_score metrics_of].
  apply calculate_complexity_nonneg.
Qed.

(** * The claims of the specification *)

(** C1. For every file text the complexity score is the sum of
    [count * weight] over the fixed pattern set, and every count is a count
    of the text itself: the opening braces weigh 0.1; the whole words [if],
    [guard], [switch], [while] and [for] 0.2; the exclamation marks not
    followed by an equals sign 0.3; the occurrences of [as!] 0.3; and the
    ten idioms [try?], [try!], [?.], [??], [@escaping], [closure], [init?],
    [deinit], [@objc], [extension] weigh 0.2, 0.4, 0.1, 0.2, 0.3, 0.2, 0.2,
    0.3, 0.2, 0.1.  All operations are binary64 operations in the order
    written; the ten idiom terms are added by the builtin [sum], from left
    to right up to CPython 3.11 and with compensation from 3.12 on, which
    can differ in the last bit.  The sample text scores 5.3; [if] after the
    letter U+00E9 is no whole word. *)
Theorem calculate_complexity_weighted_sum (content : string) :
  let text := list_ascii_of_string content in
  let nesting := float_of_len (count_occ Ascii.ascii_dec text "{"%char) in
  let conditionals :=
    float_of_len (whole_words "if" text + whole_words "guard" text
                  + whole_words "switch" text + whole_words "while" text
                  + whole_words "for" text) in
  let force_unwrap := float_of_len (unwrap_count text) in
  let force_cast := float_of_len (occurrences "as!" text) in
  let optional_try := float_of_len (occurrences "try?" text) in
  let force_try := float_of_len (occurrences "try!" text) in
  let optional_chaining := float_of_len (occurrences "?." text) in
  let nil_coalescing := float_of_len (str_count "??" text) in
  let escaping := float_of_len (occurrences "@escaping" text) in
  let closure := float_of_len (whole_words "closure" text) in
  let failable_init :=
    float_of_len (positions (occurrence true "init?" false) false text) in
  let deinitializer := float_of_len (whole_words "deinit" text) in
  let objc := float_of_len (positions (occurrence false "@objc" true) false text) in
  let extension := float_of_len (whole_words "extension" text) in
  calculate_complexity content
  = (nesting * 0.1 + conditionals * 0.2 + force_unwrap * 0.3 + force_cast * 0.3
     + (0 + optional_try * 0.2 + force_try * 0.4 + optional_chaining * 0.1
        + nil_coalescing * 0.2 + escaping * 0.3 + closure * 0.2
        + failable_init * 0.2 + deinitializer * 0.3 + objc * 0.2
        + extension * 0.1))%float
  /\ calculate_complexity_with py_sum_compensated content
     = (nesting * 0.1 + conditionals * 0.2 + force_unwrap * 0.3 + force_cast * 0.3
        + py_sum_compensated
            [ optional_try * 0.2; force_try * 0.4; optional_chaining * 0.1;
              nil_coalescing * 0.2; escaping * 0.3; closure * 0.2;
              failable_init * 0.2; deinitializer * 0.3; objc * 0.2;
              extension * 0.1 ])%float
  /\ (let sample := list_ascii_of_string swift_sample in
      count_occ Ascii.ascii_dec sample "{"%char = 9
      /\ whole_words "if" sample = 1 /\ whole_words "for" sample = 1
      /\ unwrap_count sample = 3 /\ occurrences "as!" sample = 1
      /\ positions (occurrence false "@objc" true) false sample = 1
      /\ calculate_complexity swift_sample = 5.3%float
      /\ calculate_complexity_with py_sum_compensated swift_sample = 5.3%float)
  /\ str_count "??" (list_ascii_of_string "a ??? b ???? c") = 3
  /\ (let accented := String "233" "if x" in
      whole_words "if" (list_ascii_of_string accented) = 0
      /\ calculate_complexity accented = 0%float)
  /\ calculate_complexity "?. ?? @escaping" = 0.6000000000000001%float
  /\ calculate_complexity_with py_sum_compensated "?. ?? @escaping" = 0.6%float.
Proof.
  cbv zeta.
  destruct (pattern_counts content)
    as (H1 & H2 & H3 & H4 & H5 & H6 & H7 & H8 & H9 & H10 & H11 & H12 & H13 & H14).
  cbv zeta in H1, H2, H3, H4, H5, H6, H7, H8, H9, H10, H11, H12, H13, H14.
  split; [|split].
  - unfold calculate_complexity, calculate_complexity_with, py_sum, complex_patterns.
    cbn [map fold_left fst snd].
    now rewrite H1, H2, H3, H4, H5, H6, H7, H8, H9, H10, H11, H12, H13, H14.
  - unfold calculate_complexity_with, complex_patterns. cbn [map fst snd].
    now rewrite H1, H2, H3, H4, H5, H6, H7, H8, H9, H10, H11, H12, H13, H14.
  - repeat split; vm_compute; reflexivity.
Qed.

(** C2. The ranking is a rearrangement of the collected records in descending
    order of [complexity_score + lint_issues * 0.5], and it is stable: the
    records of any one key value keep their collection order.  This holds for
    every list whose keys are numbers, and the keys of the records a scan
    collects are numbers.  Records with scores 1.0, 3.0, 3.0, 2.0 and no lint
    issue come out as 3.0, 3.0, 2.0, 1.0, the two 3.0 records in their
    original order; with scores 3.0, 2.0, 1.0, 2.5 and 0, 2, 5, 0 lint
    issues the third record comes first and the first two, of equal key,
    keep their order. *)
Theorem ranking_stable_descending :
  let key := fun m : FileMetrics =>
               (complexity_score m + float_of_len (lint_issues m) * 0.5)%float in
  (forall metrics : list FileMetrics,
     Forall (fun m => is_nan (key m) = false) metrics ->
     let ranked := sort_desc sort_key metrics in
     Permutation ranked metrics
     /\ StronglySorted (fun a b => (key b <=? key a)%float = true) ranked
     /\ forall k : float,
          List.filter (fun m => (key m =? k)%float) ranked
          = List.filter (fun m => (key m =? k)%float) metrics)
  /\ (forall (w : world) (root_dir : string) (lint : gmap string nat),
        let metrics := collected (scan w root_dir lint) in
        let ranked := sort_desc sort_key metrics in
        Permutation ranked metrics
        /\ StronglySorted (fun a b => (key b <=? key a)%float = true) ranked
        /\ forall k : float,
             List.filter (fun m => (key m =? k)%float) ranked
             = List.filter (fun m => (key m =? k)%float) metrics)
  /\ sort_desc sort_key four_records
     = [ record "b" 0 3 0; record "c" 0 3 0; record "d" 0 2 0; record "a" 0 1 0 ]
  /\ map key mixed_records = [3; 3; 3.5; 2.5]%float
  /\ sort_desc sort_key mixed_records
     = [ record "c" 0 1 5; record "a" 0 3 0; record "b" 0 2 2; record "d" 0 2.5 0 ].
Proof.
  cbv zeta. change (fun m : FileMetrics =>
                      (complexity_score m + float_of_len (lint_issues m) * 0.5)%float)
              with sort_key.
  assert (H : forall metrics : list FileMetrics,
     Forall (fun m => is_nan (sort_key m) = false) metrics ->
     Permutation (sort_desc sort_key metrics) metrics
     /\ StronglySorted (fun a b => (sort_key b <=? sort_key a)%float = true)
          (sort_desc sort_key metrics)
     /\ forall k : float,
          List.filter (fun m => (sort_key m =? k)%float) (sort_desc sort_key metrics)
          = List.filter (fun m => (sort_key m =? k)%float) metrics).
  { intros metrics Hnan. split; [|split].
    - apply sort_desc_perm.
    - apply (sort_desc_sorted sort_key), Hnan.
    - intros k. apply sort_desc_stable. }
  split; [exact H|]. split; [|repeat split; vm_compute; reflexivity].
  intros w root_dir lint. apply H, collected_keys_are_numbers.
Qed.

Lemma ranking_stable_descending_witness :
  let key := fun m : FileMetrics =>
               (complexity_score m + float_of_len (lint_issues m) * 0.5)%float in
  Permutation (sort_desc sort_key mixed_records) mixed_records
  /\ StronglySorted (fun a b => (key b <=? key a)%float = true)
       (sort_desc sort_key mixed_records)
  /\ forall k : float,
       List.filter (fun m => (key m =? k)%float) (sort_desc sort_key mixed_records)
       = List.filter (fun m => (key m =? k)%float) mixed_records.
Proof.
  apply (proj1 ranking_stable_descending mixed_records).
  repeat (constructor; [vm_compute; reflexivity|]). constructor.
Defined.

(** C3.  The claim asks for the usage message and a failure status also
    when the argument is not a directory.  The script tests the number of
    arguments only: with a wrong number it prints the usage message and ends
    with status 1, but given the path of a regular file it goes on, walks
    nothing, prints a report whose totals are all 0 and ends with status 0.
    (The scripts beside it test [os.path.isdir] right after the same test of
    the arguments and end with status 1.) *)
Theorem non_directory_is_not_rejected :
  is_directory plain_file "notes.txt" = false
  /\ main plain_file ["analyze_complexity.py"]
     = {| stdout := [usage]; stderr := []; ending := Exit 1 |}
  /\ main plain_file ["analyze_complexity.py"; "notes.txt"]
     = {| stdout := generate_report []; stderr := []; ending := Exit 0 |}
  /\ ~ In usage (generate_report [])
  /\ In [Str "Total Files: "; Num 0] (generate_report []).
Proof.
  split; [reflexivity|]. split; [reflexivity|]. split; [reflexivity|]. split.
  - vm_compute. intros H.
    repeat (destruct H as [H|H]; [discriminate H|]). exact H.
  - vm_compute. auto 20.
Qed.

(** C4. A file that cannot be read is left out of the metrics and reported
    on the error stream only; the records are those of the same tree without
    the unreadable files, and the run ends with status 0.  With three
    eligible files of which one cannot be read, the report counts two
    files. *)
Theorem read_error_is_isolated :
  (forall (w : world) (root_dir : string) (lint : gmap string nat)
          (root name e : string),
     should_analyze_file (PosixPath.join root name) = true ->
     visit w root_dir lint root (name, ReadError e)
     = [Failed [Str "Error processing "; Str (PosixPath.join root name);
                Str ": "; Str e]])
  /\ (forall (w : world) (root_dir : string) (lint : gmap string nat),
        collected (scan w root_dir lint)
        = collected (scan (without_unreadable w) root_dir lint))
  /\ (forall (w : world) (prog root_dir : string) (lint : gmap string nat),
        load_lint_report w root_dir = Ok lint ->
        let r := main w [prog; root_dir] in
        ending r = Exit 0
        /\ stdout r = generate_report (collected (scan w root_dir lint))
        /\ stderr r = diagnostics (scan w root_dir lint)
        /\ forall l, In l (stderr r) -> ~ In l (stdout r))
  /\ (let r := main three_files ["analyze_complexity.py"; "proj"] in
      ending r = Exit 0
      /\ In [Str "Total Files: "; Num 2] (stdout r)
      /\ stderr r = [ [Str "Error processing "; Str "proj/Sources/Core.swift";
                       Str ": "; Str "Permission denied"] ]).
Proof.
  split; [exact visit_unreadable|]. split; [exact collected_scan_kept|]. split.
  - intros w prog root_dir lint H r. subst r. rewrite (main_scans _ _ _ _ H).
    cbn [ending stdout stderr]. repeat split.
    intros l Hl Hout. apply (report_has_no_error_line _ _ Hout).
    apply (in_diagnostics _ _ _ _ Hl).
  - cbv zeta. split; [reflexivity|]. split; [|reflexivity].
    vm_compute. auto 30.
Qed.

Lemma read_error_is_isolated_witness :
  ending (main three_files ["analyze_complexity.py"; "proj"]) = Exit 0.
Proof.
  apply (proj1 (proj2 (proj2 read_error_is_isolated)) three_files _ _ ∅).
  reflexivity.
Defined.

(** C5. For each path the loader counts the log lines that contain
    ["warning: "] or ["error: "] and whose text before the first [":"] is
    that path; a line with neither marker leaves the mapping as it is, a
    missing log gives the empty mapping, and a path that is not mentioned
    counts 0.  In a log with two diagnostics for Foo.src, one for Bar.src
    and lines that only look like diagnostics the counts are 2 and 1. *)
Theorem lint_loader_counts :
  let marked := fun line : string =>
                  PyStr.contains "warning: " line || PyStr.contains "error: " line in
  (forall (lines : list string) (p : string),
     lint_get (load_lint_lines lines) p
     = List.length (List.filter
         (fun l => marked l && (PyStr.split_head ":" l =? p)) lines))
  /\ (forall line : string,
        marked line = true ->
        PyStr.contains ":" (PyStr.split_head ":" line) = false
        /\ exists rest, line = PyStr.split_head ":" line ++ ":" ++ rest)
  /\ (forall (lint : gmap string nat) (line : string),
        marked line = false -> lint_line lint line = lint)
  /\ (forall (w : world) (root_dir text : string),
        fs w (PosixPath.join root_dir "swiftlint_report.txt") = Some (File (Content text)) ->
        load_lint_report w root_dir = Ok (load_lint_lines (PyStr.file_lines text)))
  /\ (forall (w : world) (root_dir : string),
        fs w (PosixPath.join root_dir "swiftlint_report.txt") = None ->
        load_lint_report w root_dir = Ok ∅)
  /\ (forall p : string, lint_get ∅ p = 0)
  /\ List.length (PyStr.file_lines sample_log) = 7
  /\ List.filter marked (PyStr.file_lines sample_log)
     = [ "Foo.src:10:5: warning: Line Length Violation" ++ nl;
         "Bar.src:3:1: error: Force Cast Violation" ++ nl;
         "Foo.src:22:9: warning: Trailing Whitespace" ++ nl ]
  /\ load_lint_report logged "proj" = Ok {[ "Foo.src" := 2; "Bar.src" := 1 ]}
  /\ (let lint := load_lint_lines (PyStr.file_lines sample_log) in
      lint_get lint "Foo.src" = 2 /\ lint_get lint "Bar.src" = 1
      /\ lint_get lint "Baz.src" = 0 /\ lint_get lint "Qux.src" = 0).
Proof.
  cbv zeta. change (fun line : string =>
                      PyStr.contains "warning: " line || PyStr.contains "error: " line)
              with is_diagnostic.
  split; [|split; [|split; [|split; [|split; [|split]]]]].
  - intros lines p. unfold load_lint_lines. rewrite lint_get_fold.
    unfold lint_get. now rewrite lookup_empty.
  - intros line H. destruct (split_head_prefix ":" line) as [H1 H2].
    split; [exact H1|]. apply H2, is_diagnostic_colon, H.
  - intros lint line H. unfold lint_line. now rewrite H.
  - intros w root_dir text H. unfold load_lint_report. now rewrite H.
  - intros w root_dir H. unfold load_lint_report. now rewrite H.
  - intros p. unfold lint_get. now rewrite lookup_empty.
  - repeat split; vm_compute; reflexivity.
Qed.

Lemma lint_loader_counts_witness :
  load_lint_report logged "proj" = Ok (load_lint_lines (PyStr.file_lines sample_log)).
Proof.
  apply (proj1 (proj2 (proj2 (proj2 lint_loader_counts))) logged "proj" sample_log).
  reflexivity.
Defined.

(** C6. A file whose traversal path has an excluded directory name as one of
    its segments, at any depth, produces no record and no diagnostic,
    whatever its extension; every collected record comes from a walked file
    whose path has no excluded segment and ends with [".swift"], and so does
    the path the record stores. *)
Theorem excluded_never_collected :
  (forall part : string,
     part ∈ excluded_dirs <->
     part = ".build" \/ part = ".git" \/ part = "Tests" \/ part = "Examples"
     \/ part = "Documentation")
  /\ (forall (w : world) (root_dir : string) (lint : gmap string nat)
             (root : string) (f : string * read_result) (part : string),
        In part (PyStr.split "/" (PosixPath.join root f.1)) ->
        part ∈ excluded_dirs ->
        visit w root_dir lint root f = [])
  /\ (forall (w : world) (root_dir : string) (lint : gmap string nat)
             (m : FileMetrics),
        In m (collected (scan w root_dir lint)) ->
        exists root dirs files name content,
          In (root, dirs, files) (walked w root_dir)
          /\ In (name, Content content) files
          /\ PosixPath.relpath (cwd w) (PosixPath.join root name) root_dir
             = Some (path m)
          /\ (forall part, In part (PyStr.split "/" (PosixPath.join root name)) ->
                part ∉ excluded_dirs)
          /\ PyStr.endswith ".swift" (PosixPath.join root name) = true)
  /\ (forall (w : world) (root_dir : string) (lint : gmap string nat)
             (m : FileMetrics),
        wf_world w root_dir ->
        In m (collected (scan w root_dir lint)) ->
        PyStr.endswith ".swift" (path m) = true
        /\ forall part, In part (PyStr.split "/" (path m)) -> part ∉ excluded_dirs)
  /\ map path (collected (scan with_excluded "proj" ∅)) = ["Sources/Ok.swift"].
Proof.
  split; [|split; [|split; [|split]]].
  - intros part. unfold excluded_dirs.
    rewrite !elem_of_union, !elem_of_singleton. tauto.
  - intros w root_dir lint root f part Hin Hex. apply visit_skipped.
    destruct (should_analyze_file (PosixPath.join root f.1)) eqn:Hs; [|reflexivity].
    apply should_analyze_file_spec in Hs as [Hs _]. now destruct (Hs part Hin).
  - intros w root_dir lint m Hin.
    apply collected_scan in Hin
      as (root & dirs & files & name & content & rel & Hd & Hf & Hs & Hr & ->).
    apply should_analyze_file_spec in Hs as [Hs1 Hs2].
    now exists root, dirs, files, name, content.
  - intros w root_dir lint m Hw Hin.
    destruct (collected_paths _ _ _ _ Hw Hin)
      as (comps & name & content & Hv & Hp & _ & Hs & Hn & _).
    split.
    + rewrite Hp. destruct (pyjoin_snoc comps name) as [x ->].
      now apply endswith_app_r.
    + apply should_analyze_file_spec in Hs as [Hs _].
      intros part Hin'. apply Hs, split_join_incl; [|exact Hin'].
      rewrite Hp. destruct (comps ++ [name])%list as [|c cs] eqn:Hcs;
        [now destruct comps|].
      now destruct (join_all_valid "" c cs Hv) as (_ & _ & Hrel & _).
  - vm_compute. reflexivity.
Qed.

Lemma excluded_never_collected_witness :
  visit with_excluded "proj" ∅ "proj/Sources/Tests/Deep" ("T.swift", Content "") = [].
Proof.
  apply (proj1 (proj2 excluded_never_collected) with_excluded "proj" ∅
           "proj/Sources/Tests/Deep" ("T.swift", Content "") "Tests").
  - vm_compute. auto.
  - apply (proj1 excluded_never_collected). auto.
Defined.

(** C7. A top-5 entry gets a recommendation block exactly when its score is
    above 5 or it has a lint issue; inside a block each line is printed
    exactly under its threshold.  An entry with score 3.0 and no lint issue
    gets no block; an entry of 301 lines that gets a block gets the line about
    splitting the file. *)
Theorem recommendation_gating :
  (forall metrics : list FileMetrics,
     exists before : list line,
       generate_report metrics
       = (before ++ flat_map recommend (firstn 5 (sort_desc sort_key metrics)))%list)
  /\ (forall m : FileMetrics,
        (recommend m <> []
         <-> (5 <? complexity_score m)%float = true \/ 0 < lint_issues m)
        /\ (recommend m <> [] ->
            In [Str nl; Str (path m); Str ":"] (recommend m)
            /\ (In split_line (recommend m) <-> 300 < line_count m)
            /\ (In types_line (recommend m) <-> 3 < type_count m)
            /\ (In functions_line (recommend m) <-> 10 < function_count m)
            /\ (In lint_line_out (recommend m) <-> 0 < lint_issues m)
            /\ (forall l : line, In l simplify_lines ->
                  (In l (recommend m) <-> (10 <? complexity_score m)%float = true))))
  /\ (forall m : FileMetrics,
        complexity_score m = 3%float -> lint_issues m = 0 -> recommend m = [])
  /\ (forall m : FileMetrics,
        line_count m = 301 -> recommend m <> [] -> In split_line (recommend m)).
Proof.
  assert (Hgate : forall m, recommend m <> []
            <-> (5 <? complexity_score m)%float = true \/ 0 < lint_issues m).
  { intros m. unfold recommend, needs_attention.
    destruct (5 <? complexity_score m)%float; cbn [orb].
    - split; [auto | discriminate].
    - destruct (Nat.ltb_spec 0 (lint_issues m)).
      + split; [auto | discriminate].
      + split; [congruence | intros [?|?]; [discriminate | lia]]. }
  assert (Hblock : forall m, recommend m <> [] ->
            In [Str nl; Str (path m); Str ":"] (recommend m)
            /\ (In split_line (recommend m) <-> 300 < line_count m)
            /\ (In types_line (recommend m) <-> 3 < type_count m)
            /\ (In functions_line (recommend m) <-> 10 < function_count m)
            /\ (In lint_line_out (recommend m) <-> 0 < lint_issues m)
            /\ (forall l : line, In l simplify_lines ->
                  (In l (recommend m) <-> (10 <? complexity_score m)%float = true))).
  { intros m. unfold recommend. destruct (needs_attention m); [intros _|congruence].
    destruct (Nat.ltb_spec 300 (line_count m)), (Nat.ltb_spec 3 (type_count m)),
             (Nat.ltb_spec 10 (function_count m)), (Nat.ltb_spec 0 (lint_issues m)),
             (10 <? complexity_score m)%float;
      cbn [In app]; unfold split_line, types_line, functions_line, lint_line_out,
                      simplify_lines; cbn [In];
      (split; [auto|]);
      repeat (split; [split; [intros H'; repeat destruct H' as [H'|H'];
                               solve [discriminate | lia | contradiction | assumption]
                             | intros; solve [lia | tauto] ]|]);
      intros l Hl; repeat destruct Hl as [Hl|Hl]; try contradiction; subst l;
      (split; [intros H'; repeat destruct H' as [H'|H'];
               solve [discriminate | reflexivity | contradiction]
              | intros; solve [discriminate | tauto]]). }
  split; [|split; [|split]].
  - intros metrics. rewrite generate_report_sections. cbv zeta.
    eexists. rewrite !app_assoc. reflexivity.
  - intros m. split; [apply Hgate | apply Hblock].
  - intros m Hs Hl. unfold recommend, needs_attention. rewrite Hs, Hl. reflexivity.
  - intros m Hn Hb. apply (proj1 (proj2 (Hblock m Hb))). lia.
Qed.

Lemma recommendation_gating_witness :
  recommend (record "quiet.swift" 40 3 0) = []
  /\ In split_line (recommend (record "long.swift" 301 6 0)).
Proof.
  split.
  - apply (proj1 (proj2 (proj2 recommendation_gating))); reflexivity.
  - apply (proj2 (proj2 (proj2 recommendation_gating))); [reflexivity|].
    vm_compute. discriminate.
Defined.

(** C8. Empty content has score 0.0, no type and no function; more generally
    a text without any match of a scoring pattern has score exactly 0.0. *)
Theorem no_match_scores_zero :
  (calculate_complexity "" = 0%float /\ count_types "" = 0 /\ count_functions "" = 0)
  /\ forall content : string,
       Forall (fun r => findall_len r content = 0) scoring_patterns ->
       calculate_complexity content = 0%float.
Proof.
  split; [repeat split; vm_compute; reflexivity|].
  intros content H. rewrite calculate_complexity_terms.
  unfold scoring_patterns, complex_patterns in *. cbn [map fst snd] in *.
  repeat match goal with
  | H : Forall _ (_ :: _) |- _ =>
      let H1 := fresh in let H2 := fresh in
      inversion H as [|? ? H1 H2]; subst; clear H;
      rewrite (weighted_no_match _ _ _ H1); clear H1
  end.
  vm_compute. reflexivity.
Qed.

Lemma no_match_scores_zero_witness :
  calculate_complexity "let total = a + b" = 0%float.
Proof.
  apply (proj2 no_match_scores_zero "let total = a + b").
  repeat (constructor; [vm_compute; reflexivity|]). constructor.
Defined.

(** C9. The summary section reports the number of collected records and the
    sums of lines, types, functions and lint issues over all of them, whatever
    the top-10 listing shows; without any record the report is still printed,
    with every total 0. *)
Theorem summary_totals_all_records :
  (forall metrics : list FileMetrics,
     let ranked := sort_desc sort_key metrics in
     generate_report metrics =
       ([ [Str nl; Str "Refactoring Priority Report"];
          [Str "========================="; Str nl];
          [Str "Top 10 Files Requiring Attention:"];
          [Str "--------------------------------"] ]
        ++ flat_map listing (firstn 10 ranked)
        ++ [ [Str nl; Str "Summary Statistics:"];
             [Str "------------------"];
             [Str "Total Files: "; Num (List.length metrics)];
             [Str "Total Lines: "; Num (list_sum (map line_count metrics))];
             [Str "Total Types: "; Num (list_sum (map type_count metrics))];
             [Str "Total Functions: "; Num (list_sum (map function_count metrics))];
             [Str "Total Lint Issues: "; Num (list_sum (map lint_issues metrics))];
             [Str nl; Str "Refactoring Recommendations:"];
             [Str "---------------------------"] ]
        ++ flat_map recommend (firstn 5 ranked))%list)
  /\ generate_report [] =
       [ [Str nl; Str "Refactoring Priority Report"];
         [Str "========================="; Str nl];
         [Str "Top 10 Files Requiring Attention:"];
         [Str "--------------------------------"];
         [Str nl; Str "Summary Statistics:"];
         [Str "------------------"];
         [Str "Total Files: "; Num 0];
         [Str "Total Lines: "; Num 0];
         [Str "Total Types: "; Num 0];
         [Str "Total Functions: "; Num 0];
         [Str "Total Lint Issues: "; Num 0];
         [Str nl; Str "Refactoring Recommendations:"];
         [Str "---------------------------"] ].
Proof.
  split; [|reflexivity].
  intros metrics ranked. rewrite generate_report_sections. cbv zeta. fold ranked.
  rewrite (summary_perm ranked metrics) by apply sort_desc_perm.
  reflexivity.
Qed.

(** C10, as the code has it.  The lint count of a record is looked up under
    the full traversal path, the scan-root argument joined with the chain of
    names that leads to the file, while the path field stores that chain
    alone; the two strings differ, and the count is 0 whenever the traversal
    path is not itself a logged path, in particular whenever no logged path
    starts with the scan-root argument. *)
Theorem lint_lookup_by_traversal_path
    (w : world) (root_dir : string) (lint : gmap string nat) (m : FileMetrics) :
  wf_world w root_dir ->
  In m (collected (scan w root_dir lint)) ->
  (exists comps name,
     path m = PyStr.join "/" (comps ++ [name])
     /\ PosixPath.join (fold_left PosixPath.join comps root_dir) name
        = PosixPath.join root_dir (path m))
  /\ lint_issues m = lint_get lint (PosixPath.join root_dir (path m))
  /\ PyStr.startswith root_dir (PosixPath.join root_dir (path m)) = true
  /\ (root_dir <> "" -> PosixPath.join root_dir (path m) <> path m)
  /\ (lint !! PosixPath.join root_dir (path m) = None -> lint_issues m = 0)
  /\ ((forall key, is_Some (lint !! key) -> PyStr.startswith root_dir key = false) ->
      lint_issues m = 0).
Proof.
  intros Hw Hin.
  destruct (collected_paths _ _ _ _ Hw Hin)
    as (comps & name & content & Hv & Hp & Hj & _ & _ & Hm).
  assert (Hrel : PyStr.startswith "/" (path m) = false).
  { rewrite Hp. destruct (comps ++ [name])%list as [|c cs] eqn:Hcs;
      [now destruct comps|].
    now destruct (join_all_valid "" c cs Hv) as (_ & _ & Hrel & _). }
  assert (Hl : lint_issues m = lint_get lint (PosixPath.join root_dir (path m))).
  { rewrite Hm at 1. cbn [lint_issues metrics_of]. now rewrite Hj. }
  split; [now exists comps, name|]. split; [exact Hl|].
  split; [now apply join_startswith|].
  split; [intros Hr; now apply join_longer|].
  split.
  - intros Hnone. rewrite Hl. unfold lint_get. now rewrite Hnone.
  - intros Hkeys. rewrite Hl. unfold lint_get.
    destruct (lint !! PosixPath.join root_dir (path m)) as [v|] eqn:Hv'; [|reflexivity].
    specialize (Hkeys _ (ex_intro _ v Hv')).
    rewrite join_startswith in Hkeys by exact Hrel. discriminate.
Qed.

Lemma lint_lookup_by_traversal_path_witness :
  lint_issues (metrics_of {[ "proj/a.swift" := 1 ]} "proj/proj" "a.swift" "let b = 2"
                 "proj/a.swift") = 0.
Proof.
  refine (proj1 (proj2 (proj2 (proj2 (proj2
    (lint_lookup_by_traversal_path nested_same_name "proj" {[ "proj/a.swift" := 1 ]}
       (metrics_of {[ "proj/a.swift" := 1 ]} "proj/proj" "a.swift" "let b = 2"
          "proj/a.swift")
       nested_same_name_wf _))))) _).
  - vm_compute. auto.
  - vm_compute. reflexivity.
Defined.

(** C10 as stated fails.  The scan root ["proj"] is not the working
    directory, the only logged path, ["proj/a.swift"], is written relative to
    the scan root (it is the stored path of the second record), and yet the
    first record has one lint issue: its traversal path is that same
    string. *)
Lemma lint_issues_not_always_zero :
  wf_world nested_same_name "proj"
  /\ PosixPath.abspath (cwd nested_same_name) "proj" <> cwd nested_same_name
  /\ load_lint_report nested_same_name "proj" = Ok {[ "proj/a.swift" := 1 ]}
  /\ map (fun m => (path m, lint_issues m))
       (collected (scan nested_same_name "proj" {[ "proj/a.swift" := 1 ]}))
     = [ ("a.swift", 1); ("proj/a.swift", 0) ].
Proof.
  split; [exact nested_same_name_wf|].
  split; [vm_compute; discriminate|].
  split; vm_compute; reflexivity.
Qed.

(** * Further properties of the code *)

(** ** The extractor and the scorer *)

Lemma nonneg_not_negative (x : float) :
  FloatSign.nonneg (Prim2SF x) -> (x <? 0)%float = false.
Proof.
  intros H. rewrite FloatAxioms.ltb_spec.
  replace (Prim2SF 0) with (S754_zero false) by (vm_compute; reflexivity).
  unfold SFltb, SFcompare.
  destruct (Prim2SF x) as [[]|[]| |[] m e]; cbn in H; try contradiction;
    try discriminate; reflexivity.
Qed.

(** X1. Whatever the text, the complexity score is a number (not NaN) and
    is not negative. *)
Theorem score_is_nonnegative (content : string) :
  is_nan (calculate_complexity content) = false
  /\ (calculate_complexity content <? 0)%float = false.
Proof.
  split.
  - apply FloatSign.nonneg_not_nan, calculate_complexity_nonneg.
  - apply nonneg_not_negative, calculate_complexity_nonneg.
Qed.

(** X2. The force-unwrap signal counts the exclamation marks that are not
    directly followed by an equals sign: [!=] never counts, and each mark of
    [!!] counts. *)
Theorem force_unwrap_count (content : string) :
  findall_len re_force_unwrap content = unwrap_count (list_ascii_of_string content).
Proof. apply count_from_unwrap. Qed.

(** X3. The nesting signal counts every opening brace of the text. *)
Theorem nesting_counts_braces (content : string) :
  findall_len re_brace content
  = count_occ Ascii.ascii_dec (list_ascii_of_string content) "{"%char.
Proof. apply count_from_chr. Qed.

(** A match hands to its continuation what is left after at least
    [min_len r] characters. *)
Lemma matches_min_len (r : regex) :
  forall (pw : bool) (s : list ascii) (k : bool -> list ascii -> option nat) (n : nat),
    matches r pw s k = Some n ->
    exists pw' rest,
      k pw' rest = Some n /\ List.length rest + min_len r <= List.length s.
Proof.
  induction r as [|a|c| |r IH|r1 IH1 r2 IH2|r1 IH1 r2 IH2]; intros pw s k n;
    cbn [matches min_len].
  - intros H. exists pw, s. split; [exact H | lia].
  - destruct s as [|b s]; [discriminate|]. destruct (a =? b)%char; [|discriminate].
    intros H. exists (is_word b), s. split; [exact H | cbn [List.length]; lia].
  - apply plus_k_rest.
  - destruct (xorb pw (next_word s)); [|discriminate].
    intros H. exists pw, s. split; [exact H | lia].
  - destruct (matches r pw s _); [discriminate|].
    intros H. exists pw, s. split; [exact H | lia].
  - intros H. destruct (IH1 _ _ _ _ H) as (pw1 & s1 & H1 & Hl1).
    destruct (IH2 _ _ _ _ H1) as (pw2 & s2 & H2 & Hl2).
    exists pw2, s2. split; [exact H2 | lia].
  - destruct (matches r1 pw s k) as [n1|] eqn:H1.
    + intros H. injection H as ->. destruct (IH1 _ _ _ _ H1) as (pw' & rest & Hk & Hl).
      exists pw', rest. split; [exact Hk | lia].
    + intros H. destruct (IH2 _ _ _ _ H) as (pw' & rest & Hk & Hl).
      exists pw', rest. split; [exact Hk | lia].
Qed.

Lemma match_at_bounds (r : regex) (pw : bool) (s : list ascii) (n : nat) :
  match_at r pw s = Some n -> min_len r <= n <= List.length s.
Proof.
  intros H. apply matches_min_len in H as (pw' & rest & Hk & Hl).
  injection Hk as <-. lia.
Qed.

(** Matches do not overlap: together they fit into the text. *)
Lemma count_from_bound (r : regex) (s : list ascii) :
  0 < min_len r ->
  forall skip pw,
    skip <= List.length s ->
    count_from r skip pw s * min_len r + skip <= List.length s.
Proof.
  intros Hpos. induction s as [|a s IH]; intros skip pw Hskip; cbn [count_from].
  - cbn [List.length] in *. destruct skip; [|lia].
    destruct (match_at r pw []) as [n|] eqn:Hm; [|lia].
    apply match_at_bounds in Hm. cbn [List.length] in Hm. lia.
  - cbn [List.length] in *. destruct skip as [|skip].
    + destruct (match_at r pw (a :: s)) as [n|] eqn:Hm.
      * apply match_at_bounds in Hm. cbn [List.length] in Hm.
        specialize (IH (Nat.pred n) (is_word a)). cbn [Nat.mul]. lia.
      * specialize (IH 0 (is_word a)). lia.
    + specialize (IH skip (is_word a)). lia.
Qed.

Lemma length_list_ascii (s : string) :
  List.length (list_ascii_of_string s) = String.length s.
Proof. induction s as [|a s IH]; cbn; [reflexivity | now rewrite IH]. Qed.

Lemma findall_len_bound (r : regex) (content : string) :
  0 < min_len r -> findall_len r content * min_len r <= String.length content.
Proof.
  intros H. unfold findall_len.
  pose proof (count_from_bound r (list_ascii_of_string content) H 0 false) as Hb.
  rewrite length_list_ascii in Hb. lia.
Qed.

(** X4. Matches do not overlap, so the counts are bounded by the size of the
    text: a function declaration takes at least six characters, a type
    declaration at least six, and no signal counts more matches than the text
    has characters. *)
Theorem counts_bounded_by_text (content : string) :
  count_functions content * 6 <= String.length content
  /\ count_types content * 6 <= 4 * String.length content
  /\ Forall (fun r => findall_len r content <= String.length content)
       (scoring_patterns ++ type_patterns ++ [func_pattern]).
Proof.
  split; [|split].
  - apply (findall_len_bound func_pattern content). cbn. lia.
  - unfold count_types, type_patterns. cbn [map list_sum fold_right].
    pose proof (findall_len_bound (decl "class") content) as H1.
    pose proof (findall_len_bound (decl "struct") content) as H2.
    pose proof (findall_len_bound (decl "enum") content) as H3.
    pose proof (findall_len_bound (decl "protocol") content) as H4.
    cbn [decl lit min_len Nat.add] in H1, H2, H3, H4. lia.
  - apply List.Forall_forall. intros r Hr.
    assert (Hmin : 0 < min_len r).
    { revert r Hr. apply List.Forall_forall. repeat constructor. }
    pose proof (findall_len_bound r content Hmin). nia.
Qed.

(** ** The collector *)

Lemma join_keeps_segment (a c part : string) :
  PyStr.startswith "/" c = false -> part <> "" ->
  In part (PyStr.split "/" a) -> In part (PyStr.split "/" (PosixPath.join a c)).
Proof.
  intros Hc Hp Hin. rewrite (join_relative a c Hc). unfold join_sep.
  destruct (String.eqb_spec a "") as [->|Ha].
  - cbn in Hin. destruct Hin as [<-|[]]. congruence.
  - cbn [orb]. destruct (PyStr.endswith "/" a) eqn:He.
    + apply endswith_app in He as [a' ->]. rewrite append_assoc. cbn [String.append].
      rewrite split_app_sep in *. apply in_app_or in Hin as [Hin|Hin].
      * apply in_or_app. now left.
      * cbn in Hin. destruct Hin as [<-|[]]. congruence.
    + cbn [String.append]. rewrite split_app_sep. apply in_or_app. now left.
Qed.

Lemma valid_name_relative (c : string) :
  valid_name c = true -> PyStr.startswith "/" c = false.
Proof.
  intros H. apply valid_name_spec in H as (H1 & _ & _ & H2).
  rewrite <- (append_nil_r c). now apply no_sep_startswith.
Qed.

Lemma fold_join_keeps_segment (comps : list string) (part : string) :
  forall top,
    Forall (fun c => valid_name c = true) comps -> part <> "" ->
    In part (PyStr.split "/" top) ->
    In part (PyStr.split "/" (fold_left PosixPath.join comps top)).
Proof.
  induction comps as [|c comps IH]; intros top Hv Hp Hin; [exact Hin|].
  inversion Hv; subst. cbn [fold_left]. apply IH; trivial.
  apply join_keeps_segment; trivial. now apply valid_name_relative.
Qed.

Lemma excluded_not_empty (part : string) : part ∈ excluded_dirs -> part <> "".
Proof.
  unfold excluded_dirs. rewrite !elem_of_union, !elem_of_singleton.
  intros H ->. repeat destruct H as [H|H]; discriminate.
Qed.

(** X5. The exclusion also looks at the scan-root argument: when one of its
    own segments is an excluded name, no file below it is analysed, so the
    scan gives no record and no diagnostic. *)
Theorem excluded_root_scans_nothing
    (w : world) (root_dir : string) (lint : gmap string nat) (part : string) :
  (forall n, fs w root_dir = Some n -> wf_node n = true) ->
  In part (PyStr.split "/" root_dir) ->
  part ∈ excluded_dirs ->
  scan w root_dir lint = [].
Proof.
  intros Hwf Hin Hex.
  destruct (scan w root_dir lint) as [|ev evs] eqn:Hscan; [reflexivity|]. exfalso.
  assert (Hev : In ev (scan w root_dir lint)) by (rewrite Hscan; now left).
  apply in_scan in Hev as (root & dirs & files & f & Hd & Hf & Hev).
  unfold walked in Hd. destruct (fs w root_dir) as [n|] eqn:Hn; [|contradiction].
  destruct (walk_roots n _ _ _ _ (Hwf n eq_refl) Hd) as (comps & Hc & -> & Hfiles).
  rewrite List.Forall_forall in Hfiles. specialize (Hfiles _ Hf).
  rewrite visit_skipped in Hev; [contradiction|].
  destruct (should_analyze_file _) eqn:Hs; [|reflexivity].
  apply should_analyze_file_spec in Hs as [Hs _]. exfalso.
  apply (Hs part); [|exact Hex].
  apply join_keeps_segment; [now apply valid_name_relative | now apply excluded_not_empty |].
  apply fold_join_keeps_segment; trivial. now apply excluded_not_empty.
Qed.

Lemma excluded_root_scans_nothing_witness :
  scan root_below_tests "Tests/fixtures" ∅ = [].
Proof.
  apply (excluded_root_scans_nothing root_below_tests "Tests/fixtures" ∅ "Tests").
  - intros n H. injection H as <-. reflexivity.
  - vm_compute. auto.
  - unfold excluded_dirs. rewrite !elem_of_union, !elem_of_singleton. auto 10.
Defined.

Lemma visit_length (w : world) (root_dir : string) (lint : gmap string nat)
    (root : string) (f : string * read_result) :
  List.length (visit w root_dir lint root f)
  = if should_analyze_file (PosixPath.join root f.1) then 1 else 0.
Proof.
  unfold visit. destruct (should_analyze_file (PosixPath.join root f.1)); [|reflexivity].
  cbn [negb]. destruct f.2; [destruct (PosixPath.relpath _ _ _)|]; reflexivity.
Qed.

Lemma events_partition (evs : list event) :
  List.length (collected evs) + List.length (diagnostics evs) = List.length evs.
Proof.
  induction evs as [|[m|msg] evs IH]; [reflexivity| |];
    unfold collected, diagnostics in *; cbn [flat_map app List.length]; lia.
Qed.

(** X6. Every eligible file of the walk is accounted for exactly once, as a
    record or as a diagnostic, and a file that is not eligible leaves no
    trace. *)
Theorem eligible_files_accounted_once
    (w : world) (root_dir : string) (lint : gmap string nat) :
  List.length (collected (scan w root_dir lint))
  + List.length (diagnostics (scan w root_dir lint))
  = List.length (eligible_files w root_dir).
Proof.
  rewrite events_partition. unfold scan, eligible_files.
  induction (walked w root_dir) as [|[[root dirs] files] ds IH]; [reflexivity|].
  cbn [flat_map fst snd]. rewrite !length_app, IH. f_equal.
  rewrite length_map. clear IH.
  induction files as [|f files IH]; [reflexivity|].
  cbn [flat_map List.filter]. rewrite length_app, visit_length, IH.
  destruct (should_analyze_file (PosixPath.join root f.1)); reflexivity.
Qed.

(** X8. Loader and collector together: when the lint log is read, the lint
    count of a record is the number of diagnostic lines of the log whose text
    before the first [":"] is the traversal path of the file, the scan-root
    argument joined with the stored path. *)
Theorem lint_issues_count_log_lines
    (w : world) (root_dir text : string) (m : FileMetrics) :
  wf_world w root_dir ->
  fs w (PosixPath.join root_dir "swiftlint_report.txt") = Some (File (Content text)) ->
  let lint := load_lint_lines (PyStr.file_lines text) in
  analyze_swift_files w root_dir
  = (diagnostics (scan w root_dir lint), Ok (collected (scan w root_dir lint)))
  /\ (In m (collected (scan w root_dir lint)) ->
      lint_issues m
      = List.length
          (List.filter
             (fun l => is_diagnostic l
                       && (PyStr.split_head ":" l =? PosixPath.join root_dir (path m)))
             (PyStr.file_lines text))).
Proof.
  intros Hw Hfs lint. split.
  - unfold analyze_swift_files, load_lint_report. now rewrite Hfs.
  - intros Hin.
    destruct (collected_paths _ _ _ _ Hw Hin)
      as (comps & name & content & _ & _ & Hj & _ & _ & Hm).
    rewrite Hm at 1. cbn [lint_issues metrics_of]. rewrite Hj.
    unfold lint, load_lint_lines. rewrite lint_get_fold.
    unfold lint_get. now rewrite lookup_empty.
Qed.

Lemma lint_issues_count_log_lines_witness :
  analyze_swift_files absolute_log "/srv/proj"
  = (diagnostics (scan absolute_log "/srv/proj"
                    {[ "/srv/proj/a.swift" := 2 ]}),
     Ok (collected (scan absolute_log "/srv/proj" {[ "/srv/proj/a.swift" := 2 ]}))).
Proof.
  refine (proj1 (lint_issues_count_log_lines absolute_log "/srv/proj" _
                   (record "a.swift" 0 0 0) _ eq_refl)).
  split; [reflexivity|]. intros n H. injection H as <-. reflexivity.
Defined.

(** ** The ranking *)

Lemma strongly_sorted_app {A : Type} (R : A -> A -> Prop) (l1 l2 : list A) :
  StronglySorted R (l1 ++ l2) ->
  forall a b, In a l1 -> In b l2 -> R a b.
Proof.
  induction l1 as [|x l1 IH]; intros Hs a b Ha Hb; [contradiction|].
  cbn [app] in Hs. inversion Hs as [|? ? Hs' Hall]; subst.
  destruct Ha as [->|Ha]; [|now apply IH].
  rewrite List.Forall_forall in Hall. apply Hall, in_or_app. now right.
Qed.

(** X9. What the report lists is what ranks highest: for the records of a
    scan, no record beyond the first [n] of the ranking has a larger key than
    one of the first [n]; so the ten listed and the five recommended entries
    are the top of the ranking. *)
Theorem listing_holds_highest_keys
    (w : world) (root_dir : string) (lint : gmap string nat)
    (n : nat) (a b : FileMetrics) :
  let ranked := sort_desc sort_key (collected (scan w root_dir lint)) in
  In a (firstn n ranked) -> In b (skipn n ranked) ->
  (sort_key b <=? sort_key a)%float = true.
Proof.
  intros ranked Ha Hb.
  apply (strongly_sorted_app (not_below sort_key) (firstn n ranked) (skipn n ranked));
    trivial.
  rewrite firstn_skipn. apply sort_desc_sorted, collected_keys_are_numbers.
Qed.

Lemma listing_holds_highest_keys_witness :
  let ranked := sort_desc sort_key (collected (scan three_files "proj" ∅)) in
  (sort_key (nth 1 ranked (record "" 0 0 0))
   <=? sort_key (nth 0 ranked (record "" 0 0 0)))%float = true.
Proof.
  cbv zeta.
  apply (listing_holds_highest_keys three_files "proj" ∅ 1); vm_compute; auto.
Defined.

(** The key of a sorted list's head is not below any other: inserting it
    again puts it in front. *)
Lemma sort_desc_of_sorted {A : Type} (key : A -> float) (l : list A) :
  StronglySorted (not_below key) l -> sort_desc key l = l.
Proof.
  induction 1 as [|x l Hs IH Hall]; [reflexivity|].
  cbn [sort_desc fold_right]. fold (sort_desc key l). rewrite IH.
  destruct l as [|y l]; [reflexivity|]. cbn [insert_desc].
  inversion Hall as [|? ? Hxy _]; subst.
  now rewrite (FloatOrder.leb_not_ltb _ _ Hxy).
Qed.

(** X10. Ranking a ranked list changes nothing: [generate_report] sorts its
    argument in place, and a second call on the same list prints the same
    report. *)
Theorem report_is_repeatable (metrics : list FileMetrics) :
  Forall (fun m => is_nan (sort_key m) = false) metrics ->
  sort_desc sort_key (sort_desc sort_key metrics) = sort_desc sort_key metrics
  /\ generate_report (sort_desc sort_key metrics) = generate_report metrics.
Proof.
  intros Hnan.
  assert (H : sort_desc sort_key (sort_desc sort_key metrics)
              = sort_desc sort_key metrics)
    by now apply sort_desc_of_sorted, sort_desc_sorted.
  split; [exact H|]. rewrite !generate_report_sections. cbv zeta. now rewrite H.
Qed.

Lemma report_is_repeatable_witness :
  generate_report (sort_desc sort_key four_records) = generate_report four_records.
Proof.
  apply (report_is_repeatable four_records).
  repeat (constructor; [vm_compute; reflexivity|]). constructor.
Defined.

Lemma listing_length (l : list FileMetrics) :
  List.length (flat_map listing l) = 6 * List.length l.
Proof.
  induction l as [|m l IH]; [reflexivity|].
  cbn [flat_map]. rewrite length_app, IH. cbn [listing List.length]. lia.
Qed.

Lemma recommend_length (m : FileMetrics) : List.length (recommend m) <= 9.
Proof.
  unfold recommend.
  destruct (needs_attention m), (300 <? line_count m)%nat, (3 <? type_count m)%nat,
    (10 <? function_count m)%nat, (0 <? lint_issues m)%nat,
    (10 <? complexity_score m)%float; cbn; lia.
Qed.

Lemma recommendations_length (l : list FileMetrics) :
  List.length (flat_map recommend l) <= 9 * List.length l.
Proof.
  induction l as [|m l IH]; [cbn; lia|].
  cbn [flat_map]. rewrite length_app. pose proof (recommend_length m).
  cbn [List.length]. lia.
Qed.

(** X11. The report does not grow with the tree: counted in calls of
    [print], the listing takes six for each of at most ten entries, and the
    whole report between 13 and 118, however many files were collected. *)
Theorem report_size_is_bounded (metrics : list FileMetrics) :
  let ranked := sort_desc sort_key metrics in
  List.length (flat_map listing (firstn 10 ranked))
  = 6 * Nat.min 10 (List.length metrics)
  /\ 13 <= List.length (generate_report metrics) <= 118.
Proof.
  intros ranked.
  assert (Hlen : List.length ranked = List.length metrics)
    by apply Permutation_length, sort_desc_perm.
  assert (Hl : List.length (flat_map listing (firstn 10 ranked))
               = 6 * Nat.min 10 (List.length metrics))
    by now rewrite listing_length, length_firstn, Hlen.
  split; [exact Hl|].
  rewrite generate_report_sections. cbv zeta. fold ranked.
  rewrite !length_app, Hl.
  pose proof (recommendations_length (firstn 5 ranked)) as Hr.
  rewrite length_firstn, Hlen in Hr. cbn [summary List.length].
  clearbody ranked. unfold line in *. lia.
Qed.

(** ** The lint map *)

Lemma lint_total_insert (lint : gmap string nat) (key : string) :
  lint_total (<[key := lint_get lint key + 1]> lint) = lint_total lint + 1.
Proof.
  unfold lint_total, lint_get.
  assert (Hcomm : forall (m : gmap string nat) (j1 j2 : string) (z1 z2 y : nat),
            j1 <> j2 -> m !! j1 = Some z1 -> m !! j2 = Some z2 ->
            z1 + (z2 + y) = z2 + (z1 + y)) by (intros; lia).
  destruct (lint !! key) as [x|] eqn:Hk; cbn [default].
  - rewrite <- insert_delete_eq.
    rewrite map_fold_insert_L by (apply Hcomm || apply lookup_delete_eq).
    rewrite (map_fold_delete_L _ _ key x lint) by (apply Hcomm || exact Hk).
    unfold id. lia.
  - rewrite map_fold_insert_L by (apply Hcomm || exact Hk). lia.
Qed.

(** X12. No diagnostic line is lost or counted twice: the counts of the lint
    map add up to the number of lines that carry a severity marker. *)
Theorem lint_map_counts_every_diagnostic (lines : list string) :
  lint_total (load_lint_lines lines)
  = List.length (List.filter is_diagnostic lines).
Proof.
  unfold load_lint_lines.
  assert (H : forall m, lint_total (fold_left lint_line lines m)
                        = lint_total m + List.length (List.filter is_diagnostic lines)).
  { induction lines as [|l lines IH]; intros m; cbn [fold_left List.filter].
    - cbn. lia.
    - rewrite IH. unfold lint_line.
      destruct (is_diagnostic l); [|lia].
      cbv zeta. rewrite lint_total_insert. cbn [List.length]. lia. }
  rewrite H. unfold lint_total. rewrite map_fold_empty. reflexivity.
Qed.

Lemma split_head_no_sep (sep : ascii) (s : string) :
  PyStr.contains (String sep "") (PyStr.split_head sep s) = false.
Proof.
  pose proof (split_parts_no_sep sep s) as H. unfold PyStr.split_head.
  destruct (PyStr.split sep s) as [|hd tl]; [reflexivity|].
  now inversion H.
Qed.

Lemma contains_append (p a c : string) :
  PyStr.contains p a = true -> PyStr.contains p (a ++ c) = true.
Proof.
  intros H. apply contains_app in H as (x & y & ->). apply contains_app.
  exists x, (y ++ c). now rewrite !append_assoc.
Qed.

Lemma fold_join_contains (p : string) (comps : list string) :
  forall top,
    Forall (fun c => valid_name c = true) comps ->
    PyStr.contains p top = true ->
    PyStr.contains p (fold_left PosixPath.join comps top) = true.
Proof.
  induction comps as [|c comps IH]; intros top Hv Hp; [exact Hp|].
  inversion Hv as [|? ? Hc Hcs]; subst. cbn [fold_left]. apply IH; [exact Hcs|].
  rewrite (join_relative _ _ (valid_name_relative c Hc)). now apply contains_append.
Qed.

(** X13. The key of the lint map is the text before the first colon of a
    log line, so it holds no colon: a path with a colon is never found in
    the map, and when the scan-root argument has one every collected record
    reports 0 lint issues, whatever the log says. *)
Theorem colon_path_has_no_lint_issues (lines : list string) :
  (forall file_path,
      PyStr.contains ":" file_path = true ->
      lint_get (load_lint_lines lines) file_path = 0)
  /\ (forall w root_dir m,
        (forall n, fs w root_dir = Some n -> wf_node n = true) ->
        PyStr.contains ":" root_dir = true ->
        In m (collected (scan w root_dir (load_lint_lines lines))) ->
        lint_issues m = 0).
Proof.
  assert (Hget : forall file_path,
             PyStr.contains ":" file_path = true ->
             lint_get (load_lint_lines lines) file_path = 0).
  { intros p Hp. unfold load_lint_lines. rewrite lint_get_fold.
    unfold lint_get at 1. rewrite lookup_empty. cbn [default].
    induction lines as [|l lines IH]; [reflexivity|]. cbn [List.filter].
    destruct (PyStr.split_head ":" l =? p) eqn:E.
    - apply String.eqb_eq in E. subst p.
      pose proof (split_head_no_sep ":" l) as H. congruence.
    - rewrite andb_false_r. exact IH. }
  split; [exact Hget|].
  intros w root_dir m Hwf Hroot Hin.
  apply collected_scan in Hin
    as (root & dirs & files & name & content & rel & Hd & Hf & _ & _ & ->).
  cbn [lint_issues metrics_of]. apply Hget.
  unfold walked in Hd. destruct (fs w root_dir) as [n|] eqn:Hn; [|contradiction].
  destruct (walk_roots n _ _ _ _ (Hwf n eq_refl) Hd) as (comps & Hc & -> & Hfiles).
  rewrite List.Forall_forall in Hfiles. specialize (Hfiles _ Hf). cbn [fst] in Hfiles.
  rewrite (join_relative _ _ (valid_name_relative name Hfiles)).
  apply contains_append. now apply fold_join_contains.
Qed.

Lemma colon_path_has_no_lint_issues_witness :
  lint_get
    (load_lint_lines
       (PyStr.file_lines ("C:/proj/a.swift:3:1: warning: Line Length Violation" ++ nl)))
    "C:/proj/a.swift" = 0.
Proof.
  apply (proj1 (colon_path_has_no_lint_issues _)). reflexivity.
Defined.

(** ** The stored paths *)

Lemma unique_names_Dir (es : list (string * node)) :
  unique_names (Dir es) = true ->
  List.NoDup (map fst es) /\ Forall (fun e : string * node => unique_names e.2 = true) es.
Proof.
  cbn [unique_names]. induction es as [|[name sub] es IH]; intros H.
  - split; constructor.
  - apply andb_prop in H as [H Hes]. apply andb_prop in H as [Hn Hsub].
    destruct (IH Hes) as [IH1 IH2]. split.
    + cbn [map fst]. constructor; [|exact IH1]. intros Hin.
      apply negb_true_iff in Hn.
      assert (existsb (String.eqb name) (map fst es) = true); [|congruence].
      apply existsb_exists. exists name. split; [exact Hin | apply String.eqb_refl].
    + constructor; [exact Hsub | exact IH2].
Qed.

Lemma chains_Dir (es : list (string * node)) :
  chains (Dir es)
  = (map (fun f : string * read_result => [f.1]) (filenames es)
     ++ flat_map (fun e => map (cons e.1) (chains e.2)) es)%list.
Proof.
  cbn [chains]. f_equal.
  induction es as [|[name sub] es IH]; [reflexivity|].
  cbn [flat_map fst snd]. now rewrite IH.
Qed.

Lemma chains_valid (n : node) :
  wf_node n = true ->
  Forall (fun ch => ch <> [] /\ Forall (fun c => valid_name c = true) ch) (chains n).
Proof.
  induction n as [r|es IH] using node_induction; intros Hwf; [constructor|].
  rewrite chains_Dir. rewrite wf_node_Dir in Hwf. apply List.Forall_app. split.
  - pose proof (filenames_valid es Hwf) as Hf.
    apply List.Forall_map. eapply List.Forall_impl; [|exact Hf].
    intros f Hv. split; [discriminate | now constructor].
  - apply Forall_flat_map. rewrite forallb_forall in Hwf.
    rewrite List.Forall_forall in IH |- *. intros e He.
    specialize (Hwf e He). apply andb_prop in Hwf as [Hname Hsub].
    apply List.Forall_map. eapply List.Forall_impl; [|exact (IH e He Hsub)].
    intros ch [_ Hch]. split; [discriminate | now constructor].
Qed.

Lemma filenames_in (es : list (string * node)) (f : string * read_result) :
  In f (filenames es) -> In f.1 (map fst es).
Proof.
  unfold filenames. rewrite in_flat_map. intros ([name sub] & He & Hf).
  cbn [fst snd] in Hf. destruct sub as [r|]; [|contradiction].
  destruct Hf as [<-|[]]. cbn [fst]. now apply (in_map fst) in He.
Qed.

Lemma filenames_NoDup (es : list (string * node)) :
  List.NoDup (map fst es) -> List.NoDup (map fst (filenames es)).
Proof.
  induction es as [|[name sub] es IH]; intros H; [constructor|].
  inversion H as [|? ? Hn Hes]; subst.
  destruct sub as [r|sub]; cbn [filenames flat_map fst snd app map].
  - constructor; [|now apply IH]. intros Hin. apply Hn.
    apply in_map_iff in Hin as (f & <- & Hf). now apply filenames_in.
  - now apply IH.
Qed.

Lemma chains_NoDup (n : node) :
  wf_node n = true -> unique_names n = true -> List.NoDup (chains n).
Proof.
  induction n as [r|es IH] using node_induction; intros Hwf Hu; [constructor|].
  rewrite chains_Dir. apply unique_names_Dir in Hu as [Hnames Hsubs].
  rewrite wf_node_Dir in Hwf. rewrite forallb_forall in Hwf.
  assert (Hwfs : forall e, In e es -> wf_node e.2 = true).
  { intros e He. specialize (Hwf e He). now apply andb_prop in Hwf as [_ ?]. }
  clear Hwf. apply List.NoDup_app.
  - rewrite <- (map_map fst (fun x : string => [x])).
    apply List.NoDup_map_NoDup_ForallPairs; [|now apply filenames_NoDup].
    intros x y _ _ H. now injection H.
  - induction es as [|[name sub] es IHes]; [constructor|].
    inversion Hnames as [|? ? Hn Hes]; subst.
    inversion Hsubs as [|? ? Hsub Hsubs']; subst.
    inversion IH as [|? ? IHsub IH']; subst.
    cbn [flat_map fst snd]. apply List.NoDup_app.
    + apply List.NoDup_map_NoDup_ForallPairs.
      * intros x y _ _ H. now injection H.
      * apply IHsub; [apply (Hwfs (name, sub)); now left | exact Hsub].
    + apply IHes; trivial. intros e He. apply Hwfs. now right.
    + intros ch H1 H2. apply in_map_iff in H1 as (ch1 & <- & _).
      apply in_flat_map in H2 as (e & He & H2).
      apply in_map_iff in H2 as (ch2 & H2 & _). injection H2 as H2 _.
      apply Hn. rewrite <- H2. now apply in_map.
  - intros ch H1 H2. apply in_map_iff in H1 as (f & <- & _).
    apply in_flat_map in H2 as (e & He & H2).
    apply in_map_iff in H2 as (ch2 & H2 & Hch2). injection H2 as _ H2. subst ch2.
    pose proof (chains_valid e.2 (Hwfs e He)) as Hv.
    rewrite List.Forall_forall in Hv. now destruct (Hv [] Hch2).
Qed.

Lemma walk_paths_chains (n : node) :
  forall top,
    map traversal_path (files_of (walk top n))
    = map (PosixPath.join_all top) (chains n).
Proof.
  induction n as [r|es IH] using node_induction; intros top; [reflexivity|].
  rewrite walk_Dir, chains_Dir. unfold files_of. cbn [flat_map fst snd].
  rewrite !map_app, !map_map. f_equal.
  induction es as [|[name sub] es IHes]; [reflexivity|].
  inversion IH as [|? ? IHsub IH']; subst.
  cbn [flat_map fst snd]. rewrite !flat_map_app, !map_app, IHes by exact IH'.
  f_equal. cbn [snd] in IHsub. unfold files_of in IHsub. rewrite IHsub.
  now rewrite map_map.
Qed.

Lemma append_inv_head (a x y : string) : a ++ x = a ++ y -> x = y.
Proof.
  induction a as [|c a IH]; cbn [String.append]; intros H; [exact H|].
  injection H as H. now apply IH.
Qed.

Lemma valid_name_no_sep (c : string) :
  valid_name c = true -> PyStr.contains "/" c = false.
Proof.
  unfold valid_name. intros H. apply andb_prop in H as [_ H].
  now apply negb_true_iff in H.
Qed.

Lemma join_all_injective (top : string) (ch1 ch2 : list string) :
  ch1 <> [] -> ch2 <> [] ->
  Forall (fun c => valid_name c = true) ch1 ->
  Forall (fun c => valid_name c = true) ch2 ->
  PosixPath.join_all top ch1 = PosixPath.join_all top ch2 -> ch1 = ch2.
Proof.
  intros H1 H2 Hv1 Hv2 H.
  destruct ch1 as [|c cs]; [congruence|]. destruct ch2 as [|d ds]; [congruence|].
  destruct (join_all_valid top c cs Hv1) as (E1 & _ & R1 & _).
  destruct (join_all_valid top d ds Hv2) as (E2 & _ & R2 & _).
  rewrite E1, E2, (join_relative _ _ R1), (join_relative _ _ R2) in H.
  apply append_inv_head, append_inv_head in H.
  rewrite <- (split_pyjoin c cs), <- (split_pyjoin d ds), H; [reflexivity| |].
  - eapply List.Forall_impl; [|exact Hv2]. apply valid_name_no_sep.
  - eapply List.Forall_impl; [|exact Hv1]. apply valid_name_no_sep.
Qed.

Lemma traversal_paths_NoDup (n : node) (top : string) :
  wf_node n = true -> unique_names n = true ->
  List.NoDup (map traversal_path (files_of (walk top n))).
Proof.
  intros Hwf Hu. rewrite walk_paths_chains.
  pose proof (chains_valid n Hwf) as Hv. rewrite List.Forall_forall in Hv.
  apply List.NoDup_map_NoDup_ForallPairs; [|now apply chains_NoDup].
  intros x y Hx Hy H.
  destruct (Hv x Hx) as [? ?], (Hv y Hy) as [? ?].
  now apply (join_all_injective top).
Qed.

Lemma NoDup_by_key {A B K : Type} (g : A -> K) (h : B -> K) (f : A -> list B)
    (l : list A) :
  (forall x y, In x l -> In y (f x) -> f x = [y] /\ h y = g x) ->
  List.NoDup (map g l) -> List.NoDup (map h (flat_map f l)).
Proof.
  induction l as [|x l IH]; intros Hf Hg; [constructor|].
  inversion Hg as [|? ? Hx Hl]; subst.
  assert (IH' : List.NoDup (map h (flat_map f l))).
  { apply IH; [|exact Hl]. intros x' y Hx' Hy. apply Hf; [now right | exact Hy]. }
  cbn [flat_map]. destruct (f x) as [|y ys] eqn:Efx; [exact IH'|].
  destruct (Hf x y (or_introl eq_refl)) as [E Hy]; [rewrite Efx; now left|].
  rewrite Efx in E. injection E as ->. cbn [app map]. constructor; [|exact IH'].
  intros Hin. apply Hx. rewrite <- Hy.
  apply in_map_iff in Hin as (y' & <- & Hy').
  apply in_flat_map in Hy' as (x' & Hx' & Hy').
  destruct (Hf x' y' (or_intror Hx') Hy') as [_ ->]. now apply in_map.
Qed.

Lemma collected_scan_files (w : world) (root_dir : string) (lint : gmap string nat) :
  collected (scan w root_dir lint)
  = flat_map (fun p => collected (visit w root_dir lint p.1 p.2))
      (files_of (walked w root_dir)).
Proof.
  unfold scan, files_of.
  induction (walked w root_dir) as [|d ds IH]; [reflexivity|].
  cbn [flat_map]. rewrite collected_app, flat_map_app, IH. f_equal.
  induction d.2 as [|f fs IHf]; [reflexivity|].
  cbn [flat_map map]. now rewrite collected_app, IHf.
Qed.

Lemma visit_key (w : world) (root_dir : string) (lint : gmap string nat)
    (p : string * (string * read_result)) (m : FileMetrics) :
  wf_world w root_dir ->
  In p (files_of (walked w root_dir)) ->
  In m (collected (visit w root_dir lint p.1 p.2)) ->
  collected (visit w root_dir lint p.1 p.2) = [m]
  /\ PosixPath.join root_dir (path m) = traversal_path p.
Proof.
  intros [Hcwd Hwf] Hp Hm. split.
  - pose proof (visit_length w root_dir lint p.1 p.2) as Hlen.
    destruct (visit w root_dir lint p.1 p.2) as [|ev [|ev' evs]];
      [contradiction| |destruct (should_analyze_file _); discriminate].
    destruct ev as [m'|msg]; cbn in Hm |- *; [|contradiction].
    destruct Hm as [->|[]]. reflexivity.
  - destruct p as [root f]. unfold files_of in Hp.
    apply in_flat_map in Hp as ([[root' dirs] files] & Hd & Hp).
    cbn [fst snd] in Hp. apply in_map_iff in Hp as (f' & E & Hf).
    injection E as -> ->. cbn [fst snd] in Hm |- *.
    apply in_collected, visit_collected in Hm as (content & rel & _ & _ & Hr & ->).
    unfold walked in Hd. destruct (fs w root_dir) as [n|] eqn:Hn; [|contradiction].
    destruct (walk_roots n _ _ _ _ (Hwf n eq_refl) Hd) as (comps & Hc & -> & Hfiles).
    rewrite List.Forall_forall in Hfiles. specialize (Hfiles _ Hf).
    assert (Hv : Forall (fun c => valid_name c = true) (comps ++ [f.1])).
    { apply List.Forall_app. split; [exact Hc | now constructor]. }
    assert (Hjoin : PosixPath.join (fold_left PosixPath.join comps root_dir) f.1
                    = PosixPath.join_all root_dir (comps ++ [f.1])).
    { unfold PosixPath.join_all. now rewrite fold_left_app. }
    unfold traversal_path. cbn [fst snd path metrics_of].
    destruct (comps ++ [f.1])%list as [|c cs] eqn:Hcs; [now destruct comps|].
    rewrite Hjoin, (relpath_below _ _ c cs Hcwd Hv) in Hr. injection Hr as <-.
    destruct (join_all_valid root_dir c cs Hv) as (Hp & _).
    now rewrite Hjoin, Hp.
Qed.

(** X14. The stored path is a key of the run: in a tree whose directories
    have no two entries of one name, no two collected records have the same
    path, although the path is computed by [relpath] from the traversal
    path and the working directory. *)
Theorem stored_paths_are_unique
    (w : world) (root_dir : string) (lint : gmap string nat) :
  wf_world w root_dir ->
  (forall n, fs w root_dir = Some n -> unique_names n = true) ->
  List.NoDup (map path (collected (scan w root_dir lint))).
Proof.
  intros Hw Hu.
  apply (List.NoDup_map_inv (PosixPath.join root_dir)). rewrite map_map.
  rewrite collected_scan_files.
  apply (NoDup_by_key traversal_path).
  - intros p m Hp Hm. now apply visit_key.
  - unfold walked. destruct (fs w root_dir) as [n|] eqn:Hn; [|constructor].
    apply traversal_paths_NoDup; [exact (proj2 Hw n Hn) | now apply Hu].
Qed.

Lemma stored_paths_are_unique_witness :
  List.NoDup (map path (collected (scan nested_same_name "proj" ∅))).
Proof.
  apply (stored_paths_are_unique nested_same_name "proj" ∅).
  - split; [reflexivity|]. intros n H. injection H as <-. reflexivity.
  - intros n H. injection H as <-. reflexivity.
Defined.
